(** * GAEPyPI: path codec, storage listing and upstream fallback

    A shallow embedding of [src/gaepypi/storage.py] (class [GCStorage] and the
    helper [to_bucket_and_path]) and of the request handlers of [src/main.py],
    followed by the properties of the specification that concern them.

    Python strings are [string]s, Python lists are [list]s, a Python [dict]
    with string keys is a [gmap string _], an optional argument defaulting to
    [None] is an [option], and a call that may raise returns a [result]. *)

From Stdlib Require Import ZArith Ascii.
From stdpp Require Import base option list strings gmap pretty.
From Equations Require Import Equations.

Local Open Scope Z_scope.
Local Open Scope stdpp_scope.

(** ** The fragment of Python the sources rely on *)

Module Py.

(** Exceptions the modelled code can raise. *)
Inductive exn : Type :=
| AssertionError
| IndexError
| AttributeError.

Inductive result (A : Type) : Type :=
| Ok (a : A)
| Raise (e : exn).
Arguments Ok {A} a.
Arguments Raise {A} e.

#[global] Instance result_ret : MRet result := fun A a => Ok a.
#[global] Instance result_bind : MBind result := fun A B f r =>
  match r with
  | Ok a => f a
  | Raise e => Raise e
  end.

(** Truth value of an optional string: [None] and [''] are falsy. *)
Definition truthy (o : option string) : bool :=
  match o with
  | Some (String _ _) => true
  | _ => false
  end.

(** [s.startswith(p)] *)
Fixpoint startswith (s p : string) : bool :=
  match p, s with
  | "", _ => true
  | String _ _, "" => false
  | String b p', String a s' => if decide (a = b) then startswith s' p' else false
  end.

(** [s.endswith(p)]: some suffix of [s] is [p]. *)
Fixpoint endswith (s p : string) : bool :=
  if decide (s = p) then true
  else match s with
       | "" => false
       | String _ s' => endswith s' p
       end.

(** [s.split(sep)] for a one-character separator; the result is never
    empty, and [''.split(sep) == ['']]. *)
Fixpoint split (sep : ascii) (s : string) : list string :=
  match s with
  | "" => [""]
  | String c s' =>
      if decide (c = sep) then "" :: split sep s'
      else match split sep s' with
           | [] => [String c ""]
           | h :: t => String c h :: t
           end
  end.

(** [c in s] for a character [c]. *)
Fixpoint contains (c : ascii) (s : string) : bool :=
  match s with
  | "" => false
  | String a s' => if decide (a = c) then true else contains c s'
  end.

(** [sep.join(l)] *)
Fixpoint join (sep : string) (l : list string) : string :=
  match l with
  | [] => ""
  | [x] => x
  | x :: rest => x +:+ sep +:+ join sep rest
  end.

(** [s.lstrip(c)] for a one-character set. *)
Fixpoint lstrip (c : ascii) (s : string) : string :=
  match s with
  | String a s' => if decide (a = c) then lstrip c s' else s
  | "" => ""
  end.

(** [c.lower()] on the ASCII range, [s.lower()]. *)
Definition lower_ascii (c : ascii) : ascii :=
  let n := N_of_ascii c in
  if ((65 <=? n) && (n <=? 90))%N then ascii_of_N (n + 32) else c.

Fixpoint lower (s : string) : string :=
  match s with
  | "" => ""
  | String c s' => String (lower_ascii c) (lower s')
  end.

Fixpoint chars (s : string) : list ascii :=
  match s with
  | "" => []
  | String c s' => c :: chars s'
  end.

(** [l[i]]: a negative index counts from the end, an index out of range
    raises [IndexError]. *)
Definition index {A} (l : list A) (i : Z) : result A :=
  let n := Z.of_nat (length l) in
  let j := if i <? 0 then i + n else i in
  if (j <? 0) || (n <=? j) then Raise IndexError
  else match l !! Z.to_nat j with
       | Some x => Ok x
       | None => Raise IndexError
       end.

(** Bound of a slice: negative bounds count from the end, and every bound
    is clipped to the list. *)
Definition clip (n i : Z) : nat :=
  Z.to_nat (if i <? 0 then Z.max 0 (i + n) else Z.min i n).

(** [l[lo:hi]] and [l[lo:]] *)
Definition slice {A} (l : list A) (lo hi : Z) : list A :=
  let n := Z.of_nat (length l) in
  take (clip n hi - clip n lo)%nat (drop (clip n lo) l).

Definition slice_from {A} (l : list A) (lo : Z) : list A :=
  drop (clip (Z.of_nat (length l)) lo) l.

(** [dict(pairs)]: a later pair overrides an earlier one with its key. *)
Definition dict {V} (pairs : list (string * V)) : gmap string V :=
  foldl (fun m kv => <[kv.1 := kv.2]> m) ∅ pairs.

End Py.

(** [os.path.join(a, b)] of [posixpath], for two components. *)
Module os_path.

Definition sep : string := "/".

Definition join (a b : string) : string :=
  if Py.startswith b sep then b
  else if decide (a = "") then a +:+ b
  else if Py.endswith a sep then a +:+ b
  else a +:+ sep +:+ b.

End os_path.

(** ** [src/gaepypi/storage.py] *)

Module storage.
Import Py.

Definition to_bucket_and_path (p : string) : result (string * string) :=
  let segments := split "/" (lstrip "/" p) in
  let bucket_path := Py.join "/" (slice_from segments 1) in
  s0 ← index segments 0;
  Ok (s0, bucket_path).

(** What [storage_client.list_blobs(bucket, prefix=..., delimiter=...)]
    yields: the names of the blobs the iterator runs through, and its
    [prefixes] once the iterator is exhausted. *)
Record listing : Type := Listing {
  blob_names : list string;
  prefixes : list string
}.

(** The storage client: bucket, prefix and delimiter to a listing. *)
Definition client : Type := string -> string -> string -> listing.

(** The value of [bucket_path in ret or len(blobs.prefixes)]: a [bool]
    when the left operand is true, the [int] on the right otherwise. *)
Inductive value : Type :=
| VBool (b : bool)
| VInt (n : Z).

(** [ret.add(name)] on a [dict]: a [dict] has no attribute [add]. *)
Definition dict_add (ret : gmap string unit) (name : string)
  : result (gmap string unit) :=
  Raise AttributeError.

(** [for x in xs: acc = body(acc, x)], stopping at the first exception. *)
Fixpoint for_each {A B} (body : B -> A -> result B) (xs : list A) (acc : B)
  : result B :=
  match xs with
  | [] => Ok acc
  | x :: xs' => acc' ← body acc x; for_each body xs' acc'
  end.

Section GCStorage.
(** [self.bucket] *)
Variable bucket : string.

Definition get_packages_path : string :=
  "/" +:+ bucket +:+ "/packages".

Definition get_package_path
    (package : string) (version filename : option string) : string :=
  let path := os_path.join get_packages_path package in
  if truthy version then
    let path := os_path.join path (default "" version) in
    if truthy filename then os_path.join path (default "" filename)
    else path
  else path.

Definition components : list string := ["package"; "version"; "filename"].

Definition split_path (path : string) : result (gmap string string) :=
  let segments := split "/" path in
  s1 ← index segments 1;
  if negb (bool_decide (s1 = bucket)) then Raise AssertionError
  else
    last ← index segments (-1);
    let segments :=
      if bool_decide (last = "") then slice segments 3 (-1)
      else slice_from segments 3 in
    Ok (dict (zip components segments)).


Definition _legacy_path (p : string) : string :=
  "/" +:+ bucket +:+ "/" +:+ p.

Variable storage_client : client.

Definition ls (path : string) (dir_only : bool) : result (list string) :=
  last ← index (chars path) (-1);
  let padded :=
    if bool_decide (last = "/"%char) then path else path +:+ "/" in
  '(_, bucket_path) ← to_bucket_and_path padded;
  let blobs := storage_client bucket bucket_path "/" in
  let ret :=
    foldl (fun ret name => ret ++ [_legacy_path name]) [] (blob_names blobs) in
  if dir_only then
    Ok (foldl (fun ret p => ret ++ [_legacy_path p]) [] (prefixes blobs))
  else Ok ret.

Definition path_exists (path : string) : result value :=
  '(_, bucket_path) ← to_bucket_and_path path;
  let blobs := storage_client bucket bucket_path "/" in
  ret ← for_each dict_add (blob_names blobs) ∅;
  if bool_decide (bucket_path ∈ dom ret) then Ok (VBool true)
  else Ok (VInt (Z.of_nat (length (prefixes blobs)))).

End GCStorage.

(** [GCStorage(bucket, acl='project-private')] *)
Record GCStorage : Type := {
  self_bucket : string;
  self_acl : string
}.

Definition __init__ (bucket : string) (acl : option string) : GCStorage :=
  {| self_bucket := bucket; self_acl := default "project-private" acl |}.

(** [io.BytesIO]: the bytes it holds and the position of the next read. *)
Record BytesIO : Type := {
  getvalue : list Byte.byte;
  tell : nat
}.

Definition seek (f : BytesIO) (pos : nat) : BytesIO :=
  {| getvalue := getvalue f; tell := pos |}.

(** What a blob call can end in: an exception of the code itself, or one
    that comes out of the client: [google.cloud.exceptions.NotFound],
    [ValueError] (a blob without a name has no path; a stream to upload
    must be at its beginning), or [google.api_core.exceptions.BadRequest]
    (the service takes no object without a name). *)
Inductive failure : Type :=
| Python (e : exn)
| NotFound
| ValueError
| BadRequest.

Inductive outcome (A : Type) : Type :=
| Done (a : A)
| Failed (f : failure).
Arguments Done {A} a.
Arguments Failed {A} f.

(** The blobs of [storage_client.bucket(self.bucket)]: name to content.
    [blob.upload_from_file] binds a name, [blob.download_to_file] raises
    [NotFound] for a name that is not bound, [blob.exists()] and
    [bucket.get_blob] report it. *)
Abbreviation blobs := (gmap string (list Byte.byte)).

(** [self.path] of a blob, which [download_to_file], [exists] and
    [get_blob] need: a blob without a name has none. *)
Definition blob_path (name : string) : outcome string :=
  if bool_decide (name = "") then Failed ValueError else Done name.

(** [file_obj = BytesIO(); blob.download_to_file(file_obj)]: the content
    written to a fresh file object, which is left positioned at its end. *)
Definition download_to_file (content : list Byte.byte) : BytesIO :=
  {| getvalue := content; tell := length content |}.

(** [blob.upload_from_file(file_obj=content)], without a size, is a
    resumable upload: it takes the whole stream and raises [ValueError]
    for a stream that is not at its beginning. *)
Definition upload_from_file (content : BytesIO) : outcome (list Byte.byte) :=
  if bool_decide (tell content = 0%nat) then Done (getvalue content)
  else Failed ValueError.

Definition read (path : string) (bucket : blobs) : outcome BytesIO :=
  match to_bucket_and_path path with
  | Raise e => Failed (Python e)
  | Ok (_, bucket_path) =>
      match blob_path bucket_path with
      | Failed f => Failed f
      | Done name =>
          match bucket !! name with
          | None => Failed NotFound
          | Some content =>
              let file_obj := download_to_file content in
              Done (seek file_obj 0)
          end
      end
  end.

Definition write (path : string) (content : BytesIO) (bucket : blobs)
  : outcome blobs :=
  match to_bucket_and_path path with
  | Raise e => Failed (Python e)
  | Ok (_, bucket_path) =>
      match upload_from_file content with
      | Failed f => Failed f
      | Done uploaded =>
          if bool_decide (bucket_path = "") then Failed BadRequest
          else Done (<[bucket_path := uploaded]> bucket)
      end
  end.

Definition file_exists (path : string) (bucket : blobs) : outcome bool :=
  match to_bucket_and_path path with
  | Raise e => Failed (Python e)
  | Ok (_, bucket_path) =>
      match blob_path bucket_path with
      | Failed f => Failed f
      | Done name => Done (bool_decide (is_Some (bucket !! name)))
      end
  end.

(** [bucket.get_blob(bucket_path)] is the blob, or [None] when there is
    none; the blob is given by its name and content. *)
Definition get_metadata (path : string) (bucket : blobs)
  : outcome (option (string * list Byte.byte)) :=
  match to_bucket_and_path path with
  | Raise e => Failed (Python e)
  | Ok (_, bucket_path) =>
      match blob_path bucket_path with
      | Failed f => Failed f
      | Done name => Done (content ← bucket !! name; Some (name, content))
      end
  end.

End storage.

(** ** [src/main.py] *)

Module main.
Import Py.

(** An uploaded file of [request.files]: [upload.filename], [upload.stream]. *)
Record upload : Type := Upload {
  filename : string;
  stream : list Byte.byte
}.

(** The inbound [request]: [headers.items()] in order, the merged form and
    query fields [values], and the uploaded [files] by field name. *)
Record request : Type := Request {
  headers : list (string * string);
  values : gmap string string;
  files : gmap string upload
}.

(** The upstream response of [session.get(..., stream=True)]; [raw] holds
    the bytes that [resp.raw] has not delivered yet. *)
Record upstream : Type := Upstream {
  status_code : Z;
  resp_headers : list (string * string);
  raw : list Byte.byte
}.

(** A flask response: the body, the status code and the headers in
    order. *)
Record response : Type := make_response {
  response_body : list Byte.byte;
  status : Z;
  response_headers : list (string * string)
}.

(** [name in headers] of werkzeug's [Headers]: names compare without
    case. *)
Definition has_header (name : string) (headers : list (string * string)) : bool :=
  existsb (fun kv => bool_decide (lower kv.1 = lower name)) headers.

(** [headers[name] = value] of werkzeug's [Headers]: the first header of
    that name is replaced where it stands and later ones are dropped; a
    name that is not there is added at the end. *)
Fixpoint set_header (name value : string) (headers : list (string * string))
  : list (string * string) :=
  match headers with
  | [] => [(name, value)]
  | kv :: rest =>
      if bool_decide (lower kv.1 = lower name)
      then (name, value) :: filter (fun kv' => lower kv'.1 ≠ lower name) rest
      else kv :: set_header name value rest
  end.

(** [Response(response=..., status=..., headers=...)] for a body of bytes:
    the headers given, then the default [Content-Type] when they hold
    none, then [Content-Length] set to the length of the body. *)
Definition Response
    (body : list Byte.byte) (status : Z) (headers : list (string * string))
  : response :=
  let headers :=
    if has_header "content-type" headers then headers
    else set_header "Content-Type" "text/html; charset=utf-8" headers in
  let headers := set_header "Content-Length" (pretty (length body)) headers in
  make_response body status headers.

(** What a view hands back to Flask: a body (status 200), a full
    response object, or [abort(code)]. *)
Inductive reply : Type :=
| Body (html : string)
| Full (r : response)
| Abort (code : Z).

Definition cleanup_headers (obj : request) (skip_list : list string)
  : gmap string string :=
  foldl (fun ret kv =>
           if bool_decide (lower kv.1 ∈ skip_list) then ret
           else <[kv.1 := kv.2]> ret)
        ∅ (headers obj).

(** [resp.raw.read(amt)]: at most [amt] of the pending bytes, and the
    stream advanced past them; [b''] once nothing is pending. *)
Definition raw_read (amt : nat) (pending : list Byte.byte) : list Byte.byte * list Byte.byte :=
  (take amt pending, drop amt pending).

Definition inspect {A} (a : A) : {b : A | a = b} := exist _ a eq_refl.

(** The [while True] loop of [read_binary_data]: [buffer] is what has been
    written so far. *)
Equations? read_loop (amt : nat) (pending buffer : list Byte.byte) : list Byte.byte
  by wf (length pending) lt :=
  read_loop amt pending buffer with inspect (raw_read amt pending) := {
    | exist _ ([], _) _ => buffer
    | exist _ (b :: chunk, rest) e => read_loop amt rest (buffer ++ b :: chunk) }.
Proof.
  destruct amt as [|amt]; [discriminate|].
  destruct pending as [|x pending]; [discriminate|].
  rewrite length_drop. simpl. lia.
Qed.

Definition chunk_size : nat := 16 * 1024.

Definition read_binary_data (resp : upstream) : list Byte.byte :=
  read_loop chunk_size (raw resp) [].

Definition skip_list : list string :=
  ["authorization"; "x-appengine-auth-domain"; "x-appengine-user-is-admin"; "host"].

Section handlers.
(** The module globals [request] and [session], and the storage that
    [get_storage()] returns. *)
Variable req : request.
Variable session_get : string -> gmap string string -> upstream.
Variable bucket_name : string.

Definition proxy_to_pypi_org (package : string) : response :=
  let proxy_headers := cleanup_headers req skip_list in
  let resp := session_get ("https://pypi.org/simple/" +:+ package) proxy_headers in
  Response (read_binary_data resp) (status_code resp) (resp_headers resp).

(** [gaepypi.PackageIndex] and [gaepypi.Package] live in a module that is
    not among the sources at hand; the views below take the methods they
    call as parameters. *)
Variable PackageIndex : Type.
Variable new_PackageIndex : string -> string -> PackageIndex.
Variable index_exists : PackageIndex -> option string -> bool.
Variable index_empty : PackageIndex -> bool.
Variable index_to_html : PackageIndex -> bool -> string.

Definition packages_get_package (package : string) : reply :=
  let index := new_PackageIndex bucket_name package in
  if index_exists index None then Body (index_to_html index false)
  else Full (proxy_to_pypi_org package).

Definition pypi_package_get (package : string) : reply :=
  let st := bucket_name in
  let index := new_PackageIndex st package in
  if negb (index_empty index) && index_exists index (Some st)
  then Body (index_to_html index true)
  else Full (proxy_to_pypi_org package).

(** [Package(storage, name, version).put_file(filename, content)] on a
    store: the store after the write, or [None] for a [GAEPyPIError]. *)
Variable store : Type.
Variable put_file :
  string -> string -> string -> string -> list Byte.byte -> store -> option store.

Definition root_post (st : store) : store * reply :=
  let name := values req !! "name" in
  let version := values req !! "version" in
  let action := values req !! ":action" in
  if truthy name && truthy version
     && negb (bool_decide (size (files req) = 0%nat))
     && bool_decide (action = Some "file_upload")
  then
    match files req !! "content" with
    | None => (st, Abort 400)
    | Some upload =>
        match put_file bucket_name (default "" name) (default "" version)
                       (filename upload) (stream upload) st with
        | Some st' => (st', Body "")
        | None => (st, Abort 403)
        end
    end
  else (st, Body "").

End handlers.

(** [get_storage()]: [BUCKET_NAME] is [os.environ.get('BUCKET_NAME')],
    [default_gcs_bucket_name] what
    [app_identity.get_default_gcs_bucket_name()] would answer, and [storage]
    the module global, [None] until the first call. The result is the
    storage handed back and the global afterwards. *)
Definition get_storage
    (BUCKET_NAME : option string) (default_gcs_bucket_name : string)
    (storage : option storage.GCStorage)
  : storage.GCStorage * option storage.GCStorage :=
  match storage with
  | Some st => (st, storage)
  | None =>
      let bucket_name :=
        if truthy BUCKET_NAME then default "" BUCKET_NAME
        else default_gcs_bucket_name in
      let st := storage.__init__ bucket_name None in
      (st, Some st)
  end.

End main.

(** ** Notions of the specification *)

(** A component of a valid triple: not empty, and without a ['/']. *)
Definition valid_component (s : string) : Prop :=
  s ≠ "" ∧ Py.contains "/" s = false.

(** The segments of a path that are left once the root, the store identity
    and the [packages] segment in front, and an empty segment at the end,
    are stripped. *)
Definition path_segments (path : string) : list string :=
  let segments := Py.split "/" path in
  drop 3 (match last segments with
          | Some "" => take (length segments - 1) segments
          | _ => segments
          end).

(** A string that neither begins nor ends with ['/']. *)
Definition plain (s : string) : Prop :=
  Py.startswith s "/" = false ∧ Py.endswith s "/" = false.

(** An optional component counts as provided when it is neither [None] nor
    empty. *)
Definition provided (o : option string) : option string :=
  match o with
  | Some "" => None
  | _ => o
  end.

(** The path encoding in the words of the specification:
    [/{storeIdentity}/packages/{package}[/{version}[/{filename}]]]. *)
Definition encoded_path
    (storeIdentity package : string) (version filename : option string) : string :=
  "/" +:+ storeIdentity +:+ "/packages/" +:+ package +:+
  match version with
  | Some v =>
      "/" +:+ v +:+
      match filename with
      | Some f => "/" +:+ f
      | None => ""
      end
  | None => ""
  end.

(** A storage client that answers every query with the prefix it was asked
    for, as the only blob and the only common prefix. *)
Definition echo_client : storage.client :=
  fun bucket prefix delimiter => storage.Listing [prefix] [prefix].

(** The components that an address is made of: the package, then the
    version when there is one, then the filename when there is one too. *)
Definition components_of
    (package : string) (version filename : option string) : list string :=
  package ::
  match version with
  | Some v => v :: match filename with Some f => [f] | None => [] end
  | None => []
  end.

(** An address whose components can each be a path segment; a filename
    comes with a version. *)
Definition valid_address
    (package : string) (version filename : option string) : Prop :=
  Forall valid_component (components_of package version filename)
  ∧ (is_Some filename -> is_Some version).

Example split_path_file :
  storage.split_path "b" "/b/packages/p/1.0/p-1.0.tar.gz"
  = Py.Ok {[ "package" := "p"; "version" := "1.0"; "filename" := "p-1.0.tar.gz" ]}.
Proof. vm_compute. reflexivity. Qed.

Example read_loop_small :
  main.read_loop 2 [Byte.x61; Byte.x62; Byte.x63] [] = [Byte.x61; Byte.x62; Byte.x63].
Proof. vm_compute. reflexivity. Qed.

(** ** Facts about the string primitives *)

Section string_facts.
Import Py.
Implicit Types (s t a b : string) (c : ascii).

Lemma app_cons c s t : String c s +:+ t = String c (s +:+ t).
Proof. reflexivity. Qed.

Lemma app_empty_r s : s +:+ "" = s.
Proof. induction s as [|c s IH]; [done|]. by rewrite app_cons, IH. Qed.

Lemma app_assoc' s t a : (s +:+ t) +:+ a = s +:+ t +:+ a.
Proof. induction s as [|c s IH]; [done|]. by rewrite !app_cons, IH. Qed.

Lemma app_eq_empty s t : s +:+ t = "" -> s = "" ∧ t = "".
Proof. destruct s; [done|]. by rewrite app_cons. Qed.

Lemma chars_app s t : chars (s +:+ t) = chars s ++ chars t.
Proof. induction s as [|c s IH]; [done|]. rewrite app_cons. simpl. by rewrite IH. Qed.

Lemma split_not_nil c s : split c s ≠ [].
Proof.
  destruct s as [|a s]; simpl; [done|].
  case_decide; [done|]. by destruct (split c s).
Qed.

(** A string without the separator is a single segment. *)
Lemma split_no_sep c s : contains c s = false -> split c s = [s].
Proof.
  induction s as [|a s IH]; simpl; [done|].
  case_decide; [done|]. intros Hn. by rewrite IH.
Qed.

(** Splitting distributes over a separator. *)
Lemma split_app_sep c s t :
  split c (s +:+ String c "" +:+ t) = split c s ++ split c t.
Proof.
  induction s as [|a s IH].
  - change ("" +:+ String c "" +:+ t) with (String c t).
    simpl. by rewrite decide_True.
  - rewrite app_cons. simpl. rewrite IH. case_decide; [done|].
    pose proof (split_not_nil c s). by destruct (split c s).
Qed.

Lemma startswith_no_sep c s :
  s ≠ "" -> contains c s = false -> startswith s (String c "") = false.
Proof. destruct s as [|a s]; [done|]. simpl. by case_decide. Qed.

Lemma endswith_app_r s t c :
  t ≠ "" -> endswith (s +:+ t) (String c "") = endswith t (String c "").
Proof.
  intros Ht. induction s as [|a s IH]; [done|].
  rewrite app_cons. simpl. rewrite IH. case_decide as Heq; [|done].
  injection Heq as _ Heq. by apply app_eq_empty in Heq as [_ ?].
Qed.

Lemma endswith_no_sep c s : contains c s = false -> endswith s (String c "") = false.
Proof.
  induction s as [|a s IH]; simpl; [done|].
  destruct (decide (a = c)) as [->|Hne]; [done|].
  intros Hn. rewrite IH by done. case_decide as Heq; [|done]. congruence.
Qed.

Lemma join_plain a b :
  a ≠ "" -> endswith a "/" = false -> startswith b "/" = false ->
  os_path.join a b = a +:+ "/" +:+ b.
Proof.
  intros Ha He Hs. unfold os_path.join, os_path.sep.
  rewrite Hs, He. by rewrite decide_False.
Qed.

Lemma app_sep_not_empty a b : a +:+ "/" +:+ b ≠ "".
Proof. intros H. apply app_eq_empty in H as [_ H]. discriminate. Qed.

Lemma endswith_component a b :
  b ≠ "" -> contains "/" b = false -> endswith (a +:+ "/" +:+ b) "/" = false.
Proof.
  intros Hb Hn. rewrite <- app_assoc', endswith_app_r by done.
  by apply endswith_no_sep.
Qed.

Lemma split_length c s : contains c s = true -> (2 ≤ length (split c s))%nat.
Proof.
  induction s as [|a s IH]; simpl; [done|].
  pose proof (split_not_nil c s) as Hnil.
  case_decide.
  - intros _. destruct (split c s); [done|simpl; lia].
  - intros Hc. specialize (IH Hc). destruct (split c s); simpl in *; lia.
Qed.

Lemma split_snoc_sep c s : split c (s +:+ String c "") = split c s ++ [""].
Proof.
  change (s +:+ String c "") with (s +:+ String c "" +:+ "").
  by rewrite split_app_sep.
Qed.

(** The last segment is empty only for the empty string and for a string
    that ends with the separator. *)
Lemma last_split_empty c s :
  last (split c s) = Some "" -> s = "" ∨ endswith s (String c "") = true.
Proof.
  induction s as [|a s IH]; [by left|]. simpl. intros Hl. right.
  pose proof (split_not_nil c s) as Hnil.
  destruct (decide (a = c)) as [->|Hac].
  - destruct (split c s) as [|h t] eqn:Hs; [done|].
    rewrite last_cons_cons in Hl.
    destruct (IH Hl) as [->|He].
    + by rewrite decide_True.
    + rewrite He. by case_decide.
  - destruct (split c s) as [|h [|h' t]] eqn:Hs; [done|done|].
    rewrite last_cons_cons in Hl.
    destruct (IH Hl) as [->|He]; [done|].
    rewrite He. by case_decide.
Qed.

Lemma last_chars_endswith c s :
  last (chars s) = Some c <-> endswith s (String c "") = true.
Proof.
  induction s as [|a s IH]; [done|].
  destruct s as [|b s].
  - simpl. split.
    + intros [= ->]. by rewrite decide_True.
    + case_decide as Heq; [|done]. by injection Heq as ->.
  - change (chars (String a (String b s))) with (a :: b :: chars s).
    rewrite last_cons_cons. change (b :: chars s) with (chars (String b s)).
    rewrite IH. change (endswith (String a (String b s)) (String c ""))
      with (if decide (String a (String b s) = String c "") then true
            else endswith (String b s) (String c "")).
    by rewrite decide_False.
Qed.

Lemma contains_lstrip c (d : ascii) s :
  contains c (lstrip d s) = true -> contains c s = true.
Proof.
  induction s as [|x s IH]; simpl; [done|].
  destruct (decide (x = d)) as [->|Hxd]; [|done].
  intros Hc. rewrite (IH Hc). by case_decide.
Qed.

Lemma lstrip_app c s t : lstrip c s ≠ "" -> lstrip c (s +:+ t) = lstrip c s +:+ t.
Proof.
  induction s as [|x s IH]; [done|].
  rewrite app_cons. simpl. by case_decide.
Qed.

Lemma join_snoc_empty sep (l : list string) :
  l ≠ [] -> join sep (l ++ [""]) = join sep l +:+ sep.
Proof.
  induction l as [|x l IH]; [done|]. intros _.
  destruct l as [|y l].
  - simpl. by rewrite app_empty_r.
  - change (join sep ((x :: y :: l) ++ [""]))
      with (x +:+ sep +:+ join sep ((y :: l) ++ [""])).
    rewrite IH by done.
    change (join sep (x :: y :: l)) with (x +:+ sep +:+ join sep (y :: l)).
    by rewrite !app_assoc'.
Qed.

Lemma startswith_app a s t : startswith (a +:+ s) (a +:+ t) = startswith s t.
Proof.
  induction a as [|x a IH]; [done|].
  rewrite !app_cons. simpl. by rewrite decide_True.
Qed.

Lemma foldl_snoc_fmap {A B} (f : A -> B) (xs : list A) (acc : list B) :
  foldl (fun ret x => ret ++ [f x]) acc xs = acc ++ (f <$> xs).
Proof.
  revert acc. induction xs as [|x xs IH]; intros acc; simpl.
  - by rewrite app_nil_r.
  - rewrite IH. by rewrite <- app_assoc.
Qed.

End string_facts.

(** ** Indexing and slicing *)

Section list_facts.
Import Py.
Context {A : Type}.
Implicit Types (l : list A).

Lemma index_nat l (i : nat) :
  index l (Z.of_nat i)
  = match l !! i with Some x => Ok x | None => Raise IndexError end.
Proof.
  unfold index. cbv zeta.
  assert ((Z.of_nat i <? 0) = false) as Hi by (apply Z.ltb_ge; lia).
  rewrite Hi. cbv iota. rewrite Hi. simpl orb.
  destruct (Z.leb_spec (Z.of_nat (length l)) (Z.of_nat i)) as [Hge|Hlt].
  - rewrite (proj2 (lookup_ge_None l i)); [done|lia].
  - by rewrite Nat2Z.id.
Qed.

Lemma index_last l :
  index l (-1)
  = match last l with Some x => Ok x | None => Raise IndexError end.
Proof.
  unfold index. cbv zeta. change (-1 <? 0) with true. cbv iota.
  destruct l as [|x l]; [done|].
  rewrite last_lookup. set (n := length (x :: l)).
  assert (0 < n)%nat by (subst n; simpl; lia).
  assert ((-1 + Z.of_nat n <? 0) = false) as -> by (apply Z.ltb_ge; lia).
  assert ((Z.of_nat n <=? -1 + Z.of_nat n) = false) as ->
    by (apply Z.leb_gt; lia).
  simpl orb. cbv iota.
  by replace (Z.to_nat (-1 + Z.of_nat n)) with (pred n) by lia.
Qed.

Lemma clip_nat n (i : nat) : clip (Z.of_nat n) (Z.of_nat i) = min i n.
Proof.
  unfold clip. destruct (Z.ltb_spec (Z.of_nat i) 0); lia.
Qed.

Lemma clip_minus_one n : clip (Z.of_nat n) (-1) = (n - 1)%nat.
Proof. unfold clip. change (-1 <? 0) with true. lia. Qed.

Lemma slice_from_nat l (n : nat) : slice_from l (Z.of_nat n) = drop n l.
Proof.
  unfold slice_from. rewrite clip_nat.
  destruct (decide (n ≤ length l)%nat) as [Hle|Hgt].
  - by rewrite Nat.min_l.
  - rewrite Nat.min_r by lia. by rewrite !drop_ge by lia.
Qed.

Lemma slice_but_last l (n : nat) :
  slice l (Z.of_nat n) (-1) = drop n (take (length l - 1) l).
Proof.
  unfold slice. rewrite clip_nat, clip_minus_one.
  destruct (decide (n ≤ length l - 1)%nat) as [Hle|Hgt].
  - rewrite Nat.min_l by lia. rewrite take_drop_commute. do 2 f_equal. lia.
  - replace (length l - 1 - n `min` length l)%nat with 0%nat by lia.
    rewrite (drop_ge (take _ _)); [done|]. rewrite length_take. lia.
Qed.

End list_facts.

(** ** The path codec of [GCStorage] *)

Section path_codec.
Import Py storage.
Variable bucket : string.

Lemma get_packages_path_not_empty : get_packages_path bucket ≠ "".
Proof. done. Qed.

Lemma get_packages_path_open : endswith (get_packages_path bucket) "/" = false.
Proof.
  unfold get_packages_path. rewrite <- app_assoc'.
  by rewrite endswith_app_r.
Qed.

Lemma endswith_joined a b :
  b ≠ "" -> endswith b "/" = false -> endswith (a +:+ "/" +:+ b) "/" = false.
Proof. intros Hb He. by rewrite <- app_assoc', endswith_app_r. Qed.

Lemma packages_path_component package :
  get_packages_path bucket +:+ "/" +:+ package
  = "/" +:+ bucket +:+ "/packages/" +:+ package.
Proof. unfold get_packages_path. by rewrite !app_assoc'. Qed.

(** The side conditions under which [os.path.join] adds a separator. *)
Create HintDb joins.
#[local] Hint Resolve get_packages_path_not_empty get_packages_path_open
  startswith_no_sep app_sep_not_empty endswith_component endswith_joined : joins.

(** Rewrite one [os.path.join a b] to [a/b]. *)
Ltac join_to_sep b := rewrite (join_plain _ b); auto with joins.

(** The path of a full triple, spelled out. *)
Lemma get_package_path_full package version filename :
  valid_component package -> valid_component version ->
  valid_component filename ->
  get_package_path bucket package (Some version) (Some filename)
  = "/" +:+ bucket +:+ "/" +:+ "packages" +:+ "/" +:+ package
      +:+ "/" +:+ version +:+ "/" +:+ filename.
Proof.
  intros [Hp Hp'] [Hv Hv'] [Hf Hf']. unfold get_package_path.
  destruct version as [|cv version]; [done|].
  destruct filename as [|cf filename]; [done|]. simpl truthy. cbv iota.
  simpl default.
  join_to_sep package.
  join_to_sep (String cv version).
  join_to_sep (String cf filename).
  unfold get_packages_path. by rewrite !app_assoc'.
Qed.

Lemma split_sep_cons c t : split c (String c "" +:+ t) = "" :: split c t.
Proof. change (String c "" +:+ t) with (String c t). simpl. by rewrite decide_True. Qed.

Lemma segments_full package version filename :
  contains "/" bucket = false ->
  valid_component package -> valid_component version ->
  valid_component filename ->
  split "/" (get_package_path bucket package (Some version) (Some filename))
  = [""; bucket; "packages"; package; version; filename].
Proof.
  intros Hb Hp Hv Hf. rewrite get_package_path_full by done.
  destruct Hp as [_ Hp], Hv as [_ Hv], Hf as [_ Hf].
  rewrite split_sep_cons, !split_app_sep.
  by rewrite !split_no_sep.
Qed.

(** C1. Round trip: for a bucket name that is a single segment and every
    triple of non-empty, slash-free components, [split_path] of
    [get_package_path package version filename] is exactly the dictionary
    with [package], [version] and [filename] bound to the three
    components. *)
Theorem split_path_get_package_path package version filename :
  contains "/" bucket = false ->
  valid_component package -> valid_component version ->
  valid_component filename ->
  split_path bucket (get_package_path bucket package (Some version) (Some filename))
  = Ok {[ "package" := package; "version" := version; "filename" := filename ]}.
Proof.
  intros Hb Hp Hv Hf. unfold split_path.
  rewrite segments_full by done.
  change (index _ 1) with (Ok bucket). simpl mbind.
  rewrite bool_decide_eq_true_2 by done. simpl negb. cbv iota.
  change (index _ (-1)) with (Ok filename). simpl mbind.
  rewrite bool_decide_eq_false_2 by apply Hf.
  change (slice_from _ 3) with [package; version; filename].
  reflexivity.
Qed.

Lemma dict_zip_components (segs : list string) :
  let d := dict (zip components segs) in
  d !! "package" = segs !! 0%nat ∧ d !! "version" = segs !! 1%nat
  ∧ d !! "filename" = segs !! 2%nat ∧ size d = (3 `min` length segs)%nat.
Proof. by destruct segs as [|a [|b [|c rest]]]. Qed.

(** C2, as the code has it. A path without a second segment raises
    [IndexError]. For every other path, an identity segment that differs
    from the bucket raises [AssertionError], and a matching identity never
    fails: [split_path] binds [package], [version] and [filename] to the
    first, second and third remaining segment, as far as they exist, so no
    remaining segment gives the empty dictionary and segments beyond the
    third are dropped. *)
Theorem split_path_outcome path :
  match split "/" path !! 1%nat with
  | None => split_path bucket path = Raise IndexError
  | Some identity =>
      if decide (identity = bucket) then
        ∃ d, split_path bucket path = Ok d
             ∧ d !! "package" = path_segments path !! 0%nat
             ∧ d !! "version" = path_segments path !! 1%nat
             ∧ d !! "filename" = path_segments path !! 2%nat
             ∧ size d = (3 `min` length (path_segments path))%nat
      else split_path bucket path = Raise AssertionError
  end.
Proof.
  unfold split_path, path_segments.
  change 1 with (Z.of_nat 1). rewrite index_nat.
  destruct (split "/" path !! 1%nat) as [identity|] eqn:Hid; [|done].
  simpl mbind. case_decide as Heq.
  - rewrite bool_decide_eq_true_2 by done. simpl negb. cbv iota.
    rewrite index_last.
    destruct (last (split "/" path)) as [seg|] eqn:Hlast.
    + simpl mbind. change 3 with (Z.of_nat 3).
      rewrite slice_but_last, slice_from_nat.
      eexists. split; [done|].
      destruct seg; [rewrite bool_decide_eq_true_2 by done
                    |rewrite bool_decide_eq_false_2 by done];
        apply dict_zip_components.
    + apply last_None in Hlast. by rewrite Hlast in Hid.
  - by rewrite bool_decide_eq_false_2.
Qed.

(** C3, as the code has it. [get_packages_path] is [/{bucket}/packages];
    for a non-empty package name and optional version and filename, none
    of which begins or ends with ['/'], [get_package_path] is exactly
    [/{bucket}/packages/{package}[/{version}[/{filename}]]], where a
    version or filename that is [None] or empty counts as missing and a
    missing version also drops the filename. *)
Theorem get_package_path_encoding package version filename :
  package ≠ "" -> plain package ->
  (∀ v, version = Some v -> plain v) ->
  (∀ f, filename = Some f -> plain f) ->
  get_packages_path bucket = "/" +:+ bucket +:+ "/packages"
  ∧ get_package_path bucket package version filename
    = encoded_path bucket package (provided version) (provided filename).
Proof.
  intros Hne [Hps Hpe] Hv Hf. split; [done|].
  unfold get_package_path, encoded_path.
  join_to_sep package.
  rewrite packages_path_component.
  destruct version as [[|cv v]|]; simpl; try by rewrite app_empty_r.
  destruct (Hv _ eq_refl) as [Hvs Hve].
  rewrite <- packages_path_component.
  join_to_sep (String cv v).
  destruct filename as [[|cf f]|]; simpl;
    try by (unfold get_packages_path; rewrite app_empty_r, !app_assoc').
  destruct (Hf _ eq_refl) as [Hfs Hfe].
  join_to_sep (String cf f).
  unfold get_packages_path. by rewrite !app_assoc'.
Qed.

(** C10, as the code has it. When the version is omitted or empty, the
    filename is ignored without any failure: the result is the path of
    the package alone, [os.path.join] of [/{bucket}/packages] and the
    package name, which is [/{bucket}/packages/{package}] for every
    package name that does not begin with ['/']. *)
Theorem get_package_path_ignores_filename package version filename :
  truthy version = false ->
  get_package_path bucket package version filename
  = get_package_path bucket package None None
  ∧ (startswith package "/" = false ->
     get_package_path bucket package version filename
     = "/" +:+ bucket +:+ "/packages/" +:+ package).
Proof.
  intros Hv. unfold get_package_path. rewrite Hv. simpl truthy. cbv iota.
  split; [done|]. intros Hs.
  join_to_sep package.
  apply packages_path_component.
Qed.

End path_codec.

(** ** Listing and existence *)

Section listing.
Import Py storage.
Variable bucket : string.
Variable storage_client : client.

Lemma to_bucket_and_path_ok p :
  ∃ b, to_bucket_and_path p
       = Ok (b, Py.join "/" (drop 1 (split "/" (lstrip "/" p)))).
Proof.
  unfold to_bucket_and_path.
  change 1 with (Z.of_nat 1). rewrite slice_from_nat.
  change 0 with (Z.of_nat 0). rewrite index_nat.
  pose proof (split_not_nil "/" (lstrip "/" p)).
  destruct (split "/" (lstrip "/" p)) as [|b segs]; [done|]. by exists b.
Qed.

(** The bucket-relative part of a path with a slash appended. *)
Lemma bucket_path_padded path :
  contains "/" (lstrip "/" path) = true ->
  Py.join "/" (drop 1 (split "/" (lstrip "/" (path +:+ "/"))))
  = Py.join "/" (drop 1 (split "/" (lstrip "/" path))) +:+ "/".
Proof.
  intros Hc. rewrite lstrip_app by (by destruct (lstrip "/" path)).
  rewrite split_snoc_sep. pose proof (split_length _ _ Hc) as Hlen.
  destruct (split "/" (lstrip "/" path)) as [|b [|x segs]];
    [simpl in Hlen; lia..|].
  change (drop 1 ((b :: x :: segs) ++ [""])) with ((x :: segs) ++ [""]).
  by rewrite join_snoc_empty.
Qed.

(** [ls] of a path that ends in ['/'] queries the bucket-relative part of
    the path as it is. *)
Lemma ls_padded path dir_only b bucket_path :
  endswith path "/" = true ->
  to_bucket_and_path path = Ok (b, bucket_path) ->
  ls bucket storage_client path dir_only
  = Ok (_legacy_path bucket <$>
          (if dir_only then prefixes (storage_client bucket bucket_path "/")
           else blob_names (storage_client bucket bucket_path "/"))).
Proof.
  intros He Hb. unfold ls. rewrite index_last.
  apply last_chars_endswith in He. rewrite He. simpl mbind.
  rewrite Hb. simpl mbind.
  rewrite !foldl_snoc_fmap. by destruct dir_only.
Qed.

(** [ls] of a non-empty path that does not end in ['/'] is [ls] of the
    path with a ['/'] appended. *)
Lemma ls_pads path dir_only :
  path ≠ "" -> endswith path "/" = false ->
  ls bucket storage_client path dir_only
  = ls bucket storage_client (path +:+ "/") dir_only.
Proof.
  intros Hne He. unfold ls. rewrite !index_last.
  assert (last (chars (path +:+ "/")) = Some "/"%char) as ->.
  { apply last_chars_endswith. by rewrite endswith_app_r. }
  destruct (last (chars path)) as [c|] eqn:Hlast.
  - simpl mbind. rewrite bool_decide_eq_false_2; [done|].
    intros ->. apply last_chars_endswith in Hlast. congruence.
  - apply last_None in Hlast. by destruct path.
Qed.

Lemma split_path_trailing_slash path :
  contains "/" path = true -> endswith path "/" = false ->
  split_path bucket (path +:+ "/") = split_path bucket path.
Proof.
  intros Hc He. unfold split_path. rewrite split_snoc_sep.
  pose proof (split_length _ _ Hc) as Hlen.
  pose proof (last_split_empty "/" path) as Hlast.
  set (segs := split "/" path) in *.
  change 1 with (Z.of_nat 1). rewrite !index_nat, lookup_app_l by lia.
  destruct (segs !! 1%nat) as [s1|]; [simpl mbind|done].
  destruct (negb (bool_decide (s1 = bucket))); [done|].
  rewrite !index_last, last_snoc.
  destruct (last segs) as [seg|] eqn:Hseg.
  - simpl mbind. rewrite bool_decide_eq_false_2.
    + change 3 with (Z.of_nat 3). rewrite slice_but_last, slice_from_nat.
      rewrite length_app. simpl length.
      by rewrite take_app_length' by lia.
    + intros ->. destruct (Hlast eq_refl) as [->|Ht]; [done|congruence].
  - apply last_None in Hseg. rewrite Hseg in Hlen. simpl in Hlen. lia.
Qed.

(** C7. A path of the encoding, [/{bucket}/packages/{package}[/{version}
    [/{filename}]]], does not end in ['/'] and has a ['/'] left once its
    leading slashes are stripped ([address_path_in_bucket]). For every such
    path: [split_path] decodes the path with a trailing empty segment, the
    path followed by ['/'], as it decodes the path; [ls] answers the same
    for both; and [ls] queries the client with the bucket-relative part of
    the path followed by ['/'] as prefix and ['/'] as delimiter, so that a
    name that begins with that part matches the prefix only when a ['/']
    comes next: the prefix [foo/] does not match [foobar]. *)
Theorem trailing_slash_normalization path dir_only :
  endswith path "/" = false ->
  contains "/" (lstrip "/" path) = true ->
  split_path bucket (path +:+ "/") = split_path bucket path
  ∧ ls bucket storage_client (path +:+ "/") dir_only
    = ls bucket storage_client path dir_only
  ∧ ∃ b bucket_path,
      to_bucket_and_path path = Ok (b, bucket_path)
      ∧ ls bucket storage_client path dir_only
        = Ok (_legacy_path bucket <$>
                (if dir_only
                 then prefixes (storage_client bucket (bucket_path +:+ "/") "/")
                 else blob_names (storage_client bucket (bucket_path +:+ "/") "/")))
      ∧ ∀ rest, startswith (bucket_path +:+ rest) (bucket_path +:+ "/")
                = startswith rest "/".
Proof.
  intros He Hc.
  assert (path ≠ "") as Hne by (by intros ->).
  split; [|split].
  - apply split_path_trailing_slash; [|done]. by eapply contains_lstrip.
  - by rewrite <- ls_pads.
  - destruct (to_bucket_and_path_ok path) as [b Hb].
    destruct (to_bucket_and_path_ok (path +:+ "/")) as [b' Hb'].
    rewrite bucket_path_padded in Hb' by done.
    eexists _, _. split; [exact Hb|]. split.
    + rewrite ls_pads by done.
      apply (ls_padded _ _ b'); [|done]. by rewrite endswith_app_r.
    + intros rest. apply startswith_app.
Qed.

(** C9. [path_exists] raises [AttributeError] whenever the listing of its
    prefix holds a blob, on the first [ret.add]; it returns only when the
    listing holds no blob, and then the number of common prefixes, an
    [int], not a [bool]. *)
Theorem path_exists_outcome path :
  ∃ b bucket_path,
    to_bucket_and_path path = Ok (b, bucket_path)
    ∧ let blobs := storage_client bucket bucket_path "/" in
      (blob_names blobs ≠ [] ->
       path_exists bucket storage_client path = Raise AttributeError)
      ∧ (∀ v, path_exists bucket storage_client path = Ok v ->
              blob_names blobs = []
              ∧ v = VInt (Z.of_nat (length (prefixes blobs)))).
Proof.
  destruct (to_bucket_and_path_ok path) as [b Hb].
  eexists _, _. split; [exact Hb|]. unfold path_exists. rewrite Hb.
  simpl mbind.
  destruct (blob_names (storage_client bucket _ "/")) as [|name names];
    simpl; [split|split]; try done.
  intros v. rewrite bool_decide_eq_false_2 by set_solver.
  by intros [= <-].
Qed.

End listing.

(** ** The fallback proxy and the views of [main.py] *)

Section proxy.
Import Py main.

Lemma dict_snoc {V} (pairs : list (string * V)) k v :
  dict (pairs ++ [(k, v)]) = <[k := v]> (dict pairs).
Proof. unfold dict. by rewrite foldl_snoc. Qed.

(** The loop of [cleanup_headers] filters the dictionary of the headers. *)
Lemma cleanup_headers_filter obj (skip : list string) :
  cleanup_headers obj skip
  = filter (fun kv => lower kv.1 ∉ skip) (dict (headers obj)).
Proof.
  unfold cleanup_headers.
  induction (headers obj) as [|[k v] hs IH] using rev_ind.
  - symmetry. apply map_filter_empty.
  - rewrite foldl_snoc, dict_snoc, IH. simpl.
    case_bool_decide as Hk.
    + rewrite map_filter_insert_not'; [done|by intros ?|by intros ? _ ?].
    + by rewrite map_filter_insert_True.
Qed.

(** A header name that occurs once keeps its value in the dictionary. *)
Lemma dict_lookup_NoDup {V} (pairs : list (string * V)) k v :
  NoDup pairs.*1 -> (k, v) ∈ pairs -> dict pairs !! k = Some v.
Proof.
  induction pairs as [|[k' v'] pairs IH] using rev_ind; [by intros _ ?%elem_of_nil|].
  rewrite fmap_app, NoDup_app, dict_snoc. intros (Hnd & Hnin & _) Hin.
  apply elem_of_app in Hin as [Hin|Hin%list_elem_of_singleton].
  - rewrite lookup_insert_ne; [by apply IH|].
    intros <-. apply (Hnin k'); [|set_solver].
    apply list_elem_of_fmap. by exists (k', v).
  - injection Hin as -> ->. by rewrite lookup_insert_eq.
Qed.

(** C4. The headers that [proxy_to_pypi_org] hands to the upstream request
    are the inbound headers, as a dictionary, without those whose
    lower-cased name is [authorization], [x-appengine-auth-domain],
    [x-appengine-user-is-admin] or [host]: no header of the exclusion set
    is forwarded, in particular none spelled like [Authorization], and
    every other header of a request that lists each name once is
    forwarded with its value. *)
Theorem cleanup_headers_forwarded obj :
  let forwarded := cleanup_headers obj skip_list in
  forwarded = filter (fun kv => lower kv.1 ∉ skip_list) (dict (headers obj))
  ∧ (∀ k, lower k ∈ skip_list -> forwarded !! k = None)
  ∧ (∀ k, lower k = "authorization" -> forwarded !! k = None)
  ∧ (∀ k v, NoDup (headers obj).*1 -> (k, v) ∈ headers obj ->
            lower k ∉ skip_list -> forwarded !! k = Some v)
  ∧ (∀ session_get package,
       let resp := session_get ("https://pypi.org/simple/" +:+ package) forwarded in
       proxy_to_pypi_org obj session_get package
       = Response (read_binary_data resp) (status_code resp) (resp_headers resp)).
Proof.
  simpl. rewrite cleanup_headers_filter. split; [done|].
  assert (∀ k, lower k ∈ skip_list ->
    filter (fun kv => lower kv.1 ∉ skip_list) (dict (headers obj)) !! k = None)
    as Hskip.
  { intros k Hk. apply map_lookup_filter_None. right. intros v _ Hn. by apply Hn. }
  split; [done|]. split; [|split].
  - intros k Hk. apply Hskip. rewrite Hk. set_solver.
  - intros k v Hnd Hin Hk. apply map_lookup_filter_Some.
    split; [by apply dict_lookup_NoDup|done].
  - intros session_get package. unfold proxy_to_pypi_org.
    by rewrite cleanup_headers_filter.
Qed.

(** The loop hands back everything that was pending, after what the
    buffer already held. *)
Lemma read_loop_all amt pending buffer :
  (0 < amt)%nat -> read_loop amt pending buffer = buffer ++ pending.
Proof.
  intros Hamt. funelim (read_loop amt pending buffer).
  - destruct amt; [lia|]. destruct pending; [|done]. by rewrite app_nil_r.
  - rewrite H by done. rewrite <- e', <- app_assoc. by rewrite take_drop.
Qed.

Lemma chunk_size_positive : (0 < chunk_size)%nat.
Proof. unfold chunk_size. lia. Qed.

(** What [headers[name] = value] leaves in the headers. *)
Lemma elem_of_set_header name value (hs : list (string * string)) kv :
  kv ∈ set_header name value hs
  <-> kv = (name, value) ∨ (kv ∈ hs ∧ lower kv.1 ≠ lower name).
Proof.
  induction hs as [|kv' hs IH]; simpl.
  - rewrite list_elem_of_singleton. split; [by left|].
    by intros [?|[?%elem_of_nil _]].
  - case_bool_decide as Heq.
    + rewrite !elem_of_cons, list_elem_of_filter. split.
      * intros [?|[? ?]]; [by left|by right; split; [right|]].
      * intros [?|[[->|?] ?]]; [by left|done|by right].
    + rewrite !elem_of_cons, IH. split.
      * intros [->|[?|[? ?]]]; [by right; split; [left|]|by left
                               |by right; split; [right|]].
      * intros [?|[[?|?] ?]]; [by right; left|by left|by right; right].
Qed.

(** A name that is not among the headers is added at the end. *)
Lemma set_header_absent name value (hs : list (string * string)) :
  has_header name hs = false -> set_header name value hs = hs ++ [(name, value)].
Proof.
  induction hs as [|kv hs IH]; simpl; [done|].
  intros [Hkv Hhs]%orb_false_elim.
  rewrite Hkv. by rewrite IH.
Qed.

Section views.
Variable req : request.
Variable session_get : string -> gmap string string -> upstream.
Variable bucket_name : string.

(** C5, as the code has it. Reading the upstream stream in chunks of
    16 KiB until an empty chunk yields every byte of the stream in order;
    the proxied response carries that body and the status code of the
    upstream response. Its headers are what [Response] makes of the
    upstream headers: every upstream header but [Content-Length] is passed
    on as it is, [Content-Length] is set to the length of the body, and
    [Content-Type: text/html; charset=utf-8] is added when the upstream
    response has no [Content-Type]; nothing else is added. *)
Theorem proxy_to_pypi_org_response package :
  Z.of_nat chunk_size = 16 * 1024
  ∧ (∀ resp, read_binary_data resp = raw resp)
  ∧ let resp := session_get ("https://pypi.org/simple/" +:+ package)
                  (cleanup_headers req skip_list) in
    let reply := proxy_to_pypi_org req session_get package in
    response_body reply = raw resp
    ∧ status reply = status_code resp
    ∧ response_headers reply
      = set_header "Content-Length" (pretty (length (raw resp)))
          (if has_header "content-type" (resp_headers resp)
           then resp_headers resp
           else resp_headers resp ++ [("Content-Type", "text/html; charset=utf-8")])
    ∧ (∀ k v, lower k ≠ "content-length" -> (k, v) ∈ resp_headers resp ->
              (k, v) ∈ response_headers reply)
    ∧ (∀ k v, (k, v) ∈ response_headers reply ->
              (k, v) ∈ resp_headers resp
              ∨ (k, v) = ("Content-Length", pretty (length (raw resp)))
              ∨ ((k, v) = ("Content-Type", "text/html; charset=utf-8")
                 ∧ has_header "content-type" (resp_headers resp) = false)).
Proof.
  assert (∀ resp, read_binary_data resp = raw resp) as Hread.
  { intros resp. unfold read_binary_data.
    by rewrite read_loop_all by apply chunk_size_positive. }
  split; [unfold chunk_size; lia|]. split; [done|]. simpl.
  unfold proxy_to_pypi_org, Response. simpl. rewrite Hread.
  set (resp := session_get _ _).
  split; [done|]. split; [done|].
  assert ((if has_header "content-type" (resp_headers resp)
           then resp_headers resp
           else set_header "Content-Type" "text/html; charset=utf-8"
                  (resp_headers resp))
          = (if has_header "content-type" (resp_headers resp)
             then resp_headers resp
             else resp_headers resp ++ [("Content-Type", "text/html; charset=utf-8")]))
    as ->.
  { destruct (has_header "content-type" (resp_headers resp)) eqn:Hct; [done|].
    by apply set_header_absent. }
  split; [done|]. split.
  - intros k v Hk Hin. apply elem_of_set_header. right. split; [|done].
    destruct (has_header "content-type" (resp_headers resp)); [done|].
    apply elem_of_app. by left.
  - intros k v [Heq|[Hin Hk]]%elem_of_set_header; [by right; left|].
    destruct (has_header "content-type" (resp_headers resp)) eqn:Hct;
      [by left|].
    apply elem_of_app in Hin as [Hin|Hin%list_elem_of_singleton];
      [by left|by right; right].
Qed.

Variable PackageIndex : Type.
Variable new_PackageIndex : string -> string -> PackageIndex.
Variable index_exists : PackageIndex -> option string -> bool.
Variable index_empty : PackageIndex -> bool.
Variable index_to_html : PackageIndex -> bool -> string.

(** C6. On [/packages/<package>] the reply is the local index when
    [index.exists()] holds and the proxied upstream response when it
    does not; on [/pypi/<package>] it is the local index when the index
    is not empty and exists, and the proxied upstream response
    otherwise. A reply is one or the other, never a mix. *)
Theorem local_presence_wins package :
  let index := new_PackageIndex bucket_name package in
  let local_ full_index := Body (index_to_html index full_index) in
  let proxied := Full (proxy_to_pypi_org req session_get package) in
  let packages_reply :=
    packages_get_package req session_get bucket_name PackageIndex
      new_PackageIndex index_exists index_to_html package in
  let pypi_reply :=
    pypi_package_get req session_get bucket_name PackageIndex
      new_PackageIndex index_exists index_empty index_to_html package in
  (packages_reply = local_ false <-> index_exists index None = true)
  ∧ (packages_reply = proxied <-> index_exists index None = false)
  ∧ (pypi_reply = local_ true
     <-> index_empty index = false
         ∧ index_exists index (Some bucket_name) = true)
  ∧ (pypi_reply = proxied
     <-> ¬ (index_empty index = false
            ∧ index_exists index (Some bucket_name) = true)).
Proof.
  simpl. unfold packages_get_package, pypi_package_get.
  destruct (index_exists _ None), (index_exists _ (Some _)),
    (index_empty _); simpl; intuition congruence.
Qed.

Variable store : Type.
Variable put_file :
  string -> string -> string -> string -> list Byte.byte -> store -> option store.

(** C8. An upload request whose [name] or [version] is missing or empty,
    that carries no file, or whose [:action] is not [file_upload]
    leaves the store as it is, and the view returns the empty body. *)
Theorem root_post_noop st :
  truthy (values req !! "name") = false
  ∨ truthy (values req !! "version") = false
  ∨ files req = ∅
  ∨ values req !! ":action" ≠ Some "file_upload" ->
  root_post req bucket_name store put_file st = (st, Body "").
Proof.
  intros H. unfold root_post.
  destruct H as [-> | [-> | [-> | Ha]]]; [done| |..].
  - by rewrite andb_false_r.
  - rewrite map_size_empty, bool_decide_eq_true_2 by done.
    simpl. by rewrite andb_false_r.
  - rewrite (bool_decide_eq_false_2 _ Ha). by rewrite andb_false_r.
Qed.

End views.
End proxy.

Lemma split_path_get_package_path_witness :
  storage.split_path "gaepypi-bucket"
    (storage.get_package_path "gaepypi-bucket" "foo" (Some "1.0") (Some "foo-1.0.tar.gz"))
  = Py.Ok {[ "package" := "foo"; "version" := "1.0"; "filename" := "foo-1.0.tar.gz" ]}.
Proof.
  apply (split_path_get_package_path "gaepypi-bucket" "foo" "1.0" "foo-1.0.tar.gz");
    unfold valid_component; simpl; done.
Defined.

Lemma split_path_outcome_witness :
  ∃ d, storage.split_path "bucket" "/bucket/packages/foo/1.0/" = Py.Ok d
       ∧ d !! "package" = Some "foo" ∧ d !! "version" = Some "1.0"
       ∧ d !! "filename" = None ∧ size d = 2%nat.
Proof.
  exact (split_path_outcome "bucket" "/bucket/packages/foo/1.0/").
Defined.

Lemma get_package_path_encoding_witness :
  storage.get_package_path "bucket" "foo" (Some "1.0") (Some "")
  = "/bucket/packages/foo/1.0".
Proof.
  apply (get_package_path_encoding "bucket" "foo" (Some "1.0") (Some ""));
    [done|done|..]; intros ? [= <-]; done.
Defined.

Lemma get_package_path_ignores_filename_witness :
  storage.get_package_path "bucket" "foo" (Some "") (Some "foo-1.0.tar.gz")
  = "/bucket/packages/foo".
Proof.
  apply (get_package_path_ignores_filename "bucket" "foo" (Some "")
           (Some "foo-1.0.tar.gz")); reflexivity.
Defined.

(** A version that begins with ['/'] replaces the whole path. *)
Lemma get_package_path_absolute_version :
  storage.get_package_path "bucket" "foo" (Some "/1.0") None = "/1.0"
  ∧ encoded_path "bucket" "foo" (Some "/1.0") None = "/bucket/packages/foo//1.0"
  ∧ storage.get_package_path "bucket" "foo" (Some "/1.0") None
    ≠ encoded_path "bucket" "foo" (Some "/1.0") None.
Proof. split; [reflexivity|]. split; [reflexivity|discriminate]. Qed.

(** A package name that begins with ['/'] is returned as it is, whatever
    the bucket. *)
Lemma get_package_path_absolute_package :
  storage.get_package_path "bucket" "/foo" None (Some "foo-1.0.tar.gz") = "/foo"
  ∧ storage.get_package_path "bucket" "/foo" None (Some "foo-1.0.tar.gz")
    ≠ "/" +:+ "bucket" +:+ "/packages/" +:+ "/foo".
Proof. split; [reflexivity|discriminate]. Qed.

Lemma trailing_slash_normalization_witness :
  storage.split_path "bucket" "/bucket/packages/foo/"
  = storage.split_path "bucket" "/bucket/packages/foo"
  ∧ storage.ls "bucket" echo_client "/bucket/packages/foo/" true
    = storage.ls "bucket" echo_client "/bucket/packages/foo" true
  ∧ storage.ls "bucket" echo_client "/bucket/packages/foo" true
    = Py.Ok ["/bucket/packages/foo/"]
  ∧ Py.startswith "packages/foobar/2.0/foobar-2.0.tar.gz" "packages/foo/" = false.
Proof.
  destruct (trailing_slash_normalization "bucket" echo_client
              "/bucket/packages/foo" true)
    as (Hs & Hl & b & bucket_path & Hb & Hls & Hsibling);
    [reflexivity..|].
  injection Hb as <- <-.
  split; [exact Hs|]. split; [exact Hl|]. split; [exact Hls|].
  exact (Hsibling "bar/2.0/foobar-2.0.tar.gz").
Defined.

Lemma path_exists_outcome_witness :
  storage.path_exists "bucket" echo_client "/bucket/packages/foo"
  = Py.Raise Py.AttributeError.
Proof.
  destruct (path_exists_outcome "bucket" echo_client "/bucket/packages/foo")
    as (b & bucket_path & Hb & Hraise & _).
  injection Hb as <- <-. by apply Hraise.
Defined.

(** An upstream response with a [Server] header only comes back with a
    [Content-Type] and a [Content-Length] besides. *)
Lemma proxy_to_pypi_org_adds_headers :
  let upstream :=
    main.Upstream 200 [("Server", "nginx")] [Byte.x6f; Byte.x6b] in
  let reply :=
    main.proxy_to_pypi_org (main.Request [] ∅ ∅) (fun _ _ => upstream) "foo" in
  main.response_headers reply
  = [("Server", "nginx"); ("Content-Type", "text/html; charset=utf-8");
     ("Content-Length", "2")]
  ∧ main.response_headers reply ≠ main.resp_headers upstream.
Proof. split; [vm_compute; reflexivity|by vm_compute]. Qed.

Lemma proxy_to_pypi_org_response_witness :
  let upstream :=
    main.Upstream 200 [("Server", "nginx")] [Byte.x6f; Byte.x6b] in
  let reply :=
    main.proxy_to_pypi_org (main.Request [] ∅ ∅) (fun _ _ => upstream) "foo" in
  main.response_body reply = [Byte.x6f; Byte.x6b]
  ∧ main.status reply = 200
  ∧ ("Server", "nginx") ∈ main.response_headers reply.
Proof.
  intros upstream reply.
  destruct (proxy_to_pypi_org_response (main.Request [] ∅ ∅)
              (fun _ _ => upstream) "foo")
    as (_ & _ & Hbody & Hstatus & _ & Hkept & _).
  split; [exact Hbody|]. split; [exact Hstatus|].
  apply Hkept; [by vm_compute|]. apply list_elem_of_here.
Defined.

Lemma cleanup_headers_forwarded_witness :
  let inbound :=
    main.Request [("Authorization", "Basic dXNlcjpwdw=="); ("Accept", "text/html");
                  ("Host", "localhost")] ∅ ∅ in
  main.cleanup_headers inbound main.skip_list !! "Authorization" = None
  ∧ main.cleanup_headers inbound main.skip_list !! "Accept" = Some "text/html".
Proof.
  intros inbound.
  destruct (cleanup_headers_forwarded inbound) as (_ & _ & Hauth & Hcopy & _).
  split; [by apply Hauth|].
  apply Hcopy.
  - refine (bool_decide_unpack _ _). vm_compute. exact I.
  - refine (bool_decide_unpack _ _). vm_compute. exact I.
  - refine (bool_decide_unpack _ _). vm_compute. exact I.
Defined.

Lemma root_post_noop_witness :
  main.root_post
    (main.Request [] {[ "name" := "foo"; "version" := "1.0"; ":action" := "submit" ]}
       {[ "content" := main.Upload "foo-1.0.tar.gz" [] ]})
    "bucket" (list string) (fun _ _ _ f _ st => Some (f :: st)) []
  = ([], main.Body "").
Proof.
  apply (root_post_noop
    (main.Request [] {[ "name" := "foo"; "version" := "1.0"; ":action" := "submit" ]}
       {[ "content" := main.Upload "foo-1.0.tar.gz" [] ]})).
  right. right. right. vm_compute. discriminate.
Defined.

(** [split_path] of a path with four segments below [packages] returns the
    first three of them, and of a path with none the empty dictionary. *)
Lemma split_path_truncates :
  length (path_segments "/bucket/packages/foo/1.0/foo-1.0.tar.gz/extra") = 4%nat
  ∧ storage.split_path "bucket" "/bucket/packages/foo/1.0/foo-1.0.tar.gz/extra"
    = Py.Ok {[ "package" := "foo"; "version" := "1.0";
               "filename" := "foo-1.0.tar.gz" ]}
  ∧ length (path_segments "/bucket/packages") = 0%nat
  ∧ storage.split_path "bucket" "/bucket/packages" = Py.Ok ∅.
Proof. repeat split; vm_compute; reflexivity. Qed.

(** ** Segments and their joins *)

Section segment_facts.
Import Py.
Implicit Types (s t : string) (c : ascii) (l : list string).

Lemma join_cons2 sep x y l :
  join sep (x :: y :: l) = x +:+ sep +:+ join sep (y :: l).
Proof. reflexivity. Qed.

(** Joining what [split] gives back restores the string. *)
Lemma join_split c s : join (String c "") (split c s) = s.
Proof.
  induction s as [|a s IH]; [done|]. simpl.
  pose proof (split_not_nil c s) as Hnil.
  destruct (split c s) as [|h t] eqn:Hs; [done|].
  case_decide as Hac.
  - subst a. rewrite join_cons2, IH. reflexivity.
  - destruct t as [|h' t].
    + simpl in *. by rewrite IH.
    + rewrite join_cons2. rewrite join_cons2 in IH.
      rewrite app_cons. by rewrite IH.
Qed.

(** Splitting a join of segments without separator restores the segments. *)
Lemma split_join c l :
  l ≠ [] -> Forall (fun s => contains c s = false) l ->
  split c (join (String c "") l) = l.
Proof.
  induction l as [|x l IH]; [done|]. intros _ Hall.
  apply Forall_cons in Hall as [Hx Hall].
  destruct l as [|y l].
  - simpl. by apply split_no_sep.
  - rewrite join_cons2, split_app_sep, IH by done.
    by rewrite split_no_sep.
Qed.

Lemma startswith_app_r s t : startswith (s +:+ t) s = true.
Proof.
  induction s as [|a s IH]; [by destruct t|].
  rewrite app_cons. simpl. by rewrite decide_True.
Qed.

Lemma startswith_inv s t : startswith s t = true -> ∃ r, s = t +:+ r.
Proof.
  revert s. induction t as [|b t IH]; intros s; [by exists s|].
  destruct s as [|a s]; [done|]. simpl. case_decide as Hab; [|done].
  subst b. intros [r ->]%IH. by exists r.
Qed.

Lemma contains_app_sep c s t : contains c (s +:+ String c t) = true.
Proof.
  induction s as [|a s IH].
  - change ("" +:+ String c t) with (String c t). simpl. by case_decide.
  - rewrite app_cons. simpl. rewrite IH. by case_decide.
Qed.

Lemma lstrip_no_sep c s :
  s ≠ "" -> contains c s = false -> ∀ t, lstrip c (s +:+ t) = s +:+ t.
Proof.
  destruct s as [|a s]; [done|]. simpl. intros _.
  case_decide as Hac; [done|]. intros _ t.
  rewrite app_cons. simpl. by rewrite ?decide_False.
Qed.

Lemma valid_component_contains s : valid_component s -> contains "/" s = false.
Proof. by intros [_ ?]. Qed.

End segment_facts.

(** ** Addresses and their paths *)

Section addresses.
Import Py storage.
Variable bucket : string.

Lemma join_slash a b :
  a ≠ "" -> endswith a "/" = false -> valid_component b ->
  os_path.join a b = a +:+ "/" +:+ b.
Proof.
  intros Ha He [Hb Hs]. apply join_plain; [done..|].
  by apply startswith_no_sep.
Qed.

(** The path of a valid address: the packages path, then the components
    joined by ['/']. *)
Lemma get_package_path_join package version filename :
  valid_address package version filename ->
  get_package_path bucket package version filename
  = "/" +:+ bucket +:+ "/packages/"
      +:+ Py.join "/" (components_of package version filename).
Proof.
  intros [Hall Himp]. unfold get_package_path.
  apply Forall_cons in Hall as [Hp Hall].
  rewrite (join_slash _ package);
    auto using get_packages_path_not_empty, get_packages_path_open.
  destruct version as [v|]; simpl in Hall.
  - apply Forall_cons in Hall as [Hv Hall].
    assert (truthy (Some v) = true) as -> by (destruct Hv as [? _]; by destruct v).
    simpl default.
    rewrite (join_slash _ v);
      [|apply app_sep_not_empty|apply endswith_component; apply Hp|done].
    destruct filename as [f|]; simpl in Hall.
    + apply Forall_cons in Hall as [Hf _].
      assert (truthy (Some f) = true) as ->
        by (destruct Hf as [? _]; by destruct f).
      simpl default.
      rewrite (join_slash _ f);
        [|apply app_sep_not_empty|apply endswith_component; apply Hv|done].
      unfold get_packages_path. simpl components_of.
      rewrite ?join_cons2. by rewrite !app_assoc'.
    + simpl truthy. cbv iota. unfold get_packages_path. simpl components_of.
      rewrite ?join_cons2. by rewrite !app_assoc'.
  - destruct filename as [f|].
    + destruct Himp as [? [=]]. by eexists.
    + simpl truthy. cbv iota. unfold get_packages_path.
      by rewrite !app_assoc'.
Qed.

Lemma components_of_no_sep package version filename :
  valid_address package version filename ->
  Forall (fun s => contains "/" s = false) (components_of package version filename).
Proof.
  intros [Hall _]. eapply Forall_impl; [exact Hall|].
  intros s. apply valid_component_contains.
Qed.

(** The segments of the path of a valid address. *)
Lemma get_package_path_segments package version filename :
  contains "/" bucket = false ->
  valid_address package version filename ->
  split "/" (get_package_path bucket package version filename)
  = "" :: bucket :: "packages" :: components_of package version filename.
Proof.
  intros Hb Hv. rewrite get_package_path_join by done.
  change ("/" +:+ bucket +:+ "/packages/" +:+ ?j)
    with (String "/" "" +:+ bucket +:+ String "/" "" +:+ "packages"
            +:+ String "/" "" +:+ j).
  rewrite split_sep_cons, !split_app_sep.
  rewrite split_no_sep by done.
  by rewrite (split_join "/") by (done || by apply components_of_no_sep).
Qed.

(** What [split_path] makes of a path from its segments. *)
Lemma split_path_of_segments path x comps :
  split "/" path = "" :: bucket :: x :: comps ->
  last (x :: comps) ≠ Some "" ->
  split_path bucket path = Ok (dict (zip components comps)).
Proof.
  intros Hs Hl. unfold split_path. rewrite Hs.
  change 1 with (Z.of_nat 1). rewrite index_nat. simpl mbind.
  rewrite bool_decide_eq_true_2 by done. simpl negb. cbv iota.
  rewrite index_last.
  change (last ("" :: bucket :: x :: comps)) with (last (x :: comps)).
  destruct (last (x :: comps)) as [seg|] eqn:Hlast;
    [|by apply last_None in Hlast].
  simpl mbind. rewrite bool_decide_eq_false_2 by congruence.
  change 3 with (Z.of_nat 3). by rewrite slice_from_nat.
Qed.

Lemma split_path_of_segments_slash path x comps :
  split "/" path = "" :: bucket :: x :: comps ++ [""] ->
  split_path bucket path = Ok (dict (zip components comps)).
Proof.
  intros Hs. unfold split_path. rewrite Hs.
  change 1 with (Z.of_nat 1). rewrite index_nat. simpl mbind.
  rewrite bool_decide_eq_true_2 by done. simpl negb. cbv iota.
  rewrite index_last.
  change ("" :: bucket :: x :: comps ++ [""])
    with (("" :: bucket :: x :: comps) ++ [""]).
  remember ("" :: bucket :: x :: comps) as segs eqn:Hsegs.
  rewrite last_snoc. simpl mbind.
  change 3 with (Z.of_nat 3). rewrite slice_but_last.
  rewrite length_app. simpl length.
  rewrite take_app_length' by lia. by subst segs.
Qed.

End addresses.

Section address_properties.
Import Py storage.
Variable bucket : string.

Lemma components_of_last package version filename :
  valid_address package version filename ->
  last ("packages" :: components_of package version filename) ≠ Some "".
Proof.
  intros [Hall _] Hlast.
  assert (last (components_of package version filename) = Some "") as Hl
    by (by destruct version as [v|], filename as [f|]).
  apply last_Some_elem_of in Hl.
  rewrite Forall_forall in Hall. by destruct (Hall _ Hl).
Qed.

(** X1. Round trip for every kind of address: for a bucket name that is a
    single segment and a package, an optional version and an optional
    filename (given only with a version), each non-empty and without
    ['/'], [split_path] of [get_package_path] binds [package] to the
    package, and [version] and [filename] exactly when they were given,
    to what was given. *)
Theorem split_path_get_package_path_address package version filename :
  contains "/" bucket = false ->
  valid_address package version filename ->
  ∃ d, split_path bucket (get_package_path bucket package version filename) = Ok d
       ∧ d !! "package" = Some package
       ∧ d !! "version" = version
       ∧ d !! "filename" = filename
       ∧ size d = length (components_of package version filename).
Proof.
  intros Hb Hv. eexists. split.
  - eapply split_path_of_segments.
    + by apply get_package_path_segments.
    + by apply components_of_last.
  - destruct Hv as [_ Himp].
    destruct version as [v|], filename as [f|]; try done.
    destruct Himp as [? [=]]. by eexists.
Qed.

(** X2. The packages path itself, with or without a ['/'] at its end,
    decodes to the empty dictionary. *)
Theorem split_path_get_packages_path :
  contains "/" bucket = false ->
  split_path bucket (get_packages_path bucket) = Ok ∅
  ∧ split_path bucket (get_packages_path bucket +:+ "/") = Ok ∅.
Proof.
  intros Hb. unfold get_packages_path.
  change ("/" +:+ bucket +:+ "/packages")
    with (String "/" "" +:+ bucket +:+ String "/" "" +:+ "packages").
  split.
  - apply (split_path_of_segments _ _ "packages" []); [|done].
    rewrite split_sep_cons, split_app_sep. by rewrite split_no_sep.
  - apply (split_path_of_segments_slash _ _ "packages" []).
    rewrite !app_assoc', split_sep_cons, split_app_sep.
    by rewrite split_no_sep.
Qed.

Lemma components_of_inj package version filename package' version' filename' :
  (is_Some filename -> is_Some version) ->
  (is_Some filename' -> is_Some version') ->
  components_of package version filename
  = components_of package' version' filename' ->
  package = package' ∧ version = version' ∧ filename = filename'.
Proof.
  intros Hi Hi' Heq.
  destruct version as [v|], filename as [f|], version' as [v'|],
    filename' as [f'|]; simplify_eq/=; try done.
  all: first [ destruct Hi as [? [=]]; by eexists
             | destruct Hi' as [? [=]]; by eexists ].
Qed.

(** X3. No two addresses share a path: when [get_package_path] gives the
    same path for two valid addresses, they have the same package, the
    same version and the same filename, so a package, a version and a
    file never collide either. *)
Theorem get_package_path_injective
    package version filename package' version' filename' :
  valid_address package version filename ->
  valid_address package' version' filename' ->
  get_package_path bucket package version filename
  = get_package_path bucket package' version' filename' ->
  package = package' ∧ version = version' ∧ filename = filename'.
Proof.
  intros Hv Hv' Heq. rewrite !get_package_path_join in Heq by done.
  do 3 apply (inj (String.app _)) in Heq.
  apply (f_equal (split "/")) in Heq.
  rewrite !(split_join "/") in Heq
    by (done || by apply components_of_no_sep).
  destruct Hv as [_ Hi], Hv' as [_ Hi'].
  by apply components_of_inj.
Qed.

End address_properties.

Section third_segment.
Import Py storage.
Variable bucket : string.

Lemma split_path_third path path' x y segs :
  split "/" path = "" :: bucket :: x :: segs ->
  split "/" path' = "" :: bucket :: y :: segs ->
  segs ≠ [] ->
  split_path bucket path = split_path bucket path'.
Proof.
  intros Hs Hs' Hne. unfold split_path. rewrite Hs, Hs'.
  destruct segs as [|s segs]; [done|].
  change 1 with (Z.of_nat 1). rewrite !index_nat. simpl mbind.
  destruct (negb (bool_decide (bucket = bucket))); [done|].
  rewrite !index_last, !last_cons_cons.
  destruct (last (s :: segs)) as [seg|]; [|done]. simpl mbind.
  change 3 with (Z.of_nat 3). rewrite !slice_but_last, !slice_from_nat.
  simpl length. replace (S (S (S (S (length segs)))) - 1)%nat
    with (S (S (S (length segs)))) by lia.
  reflexivity.
Qed.

(** X4. [split_path] checks the bucket but not the segment after it: for a
    bucket name that is a single segment, any segment in the place of
    [packages] gives the decoding of the path under [packages]. *)
Theorem split_path_any_third_segment x rest :
  contains "/" bucket = false -> contains "/" x = false ->
  split_path bucket ("/" +:+ bucket +:+ "/" +:+ x +:+ "/" +:+ rest)
  = split_path bucket ("/" +:+ bucket +:+ "/packages/" +:+ rest).
Proof.
  intros Hb Hx.
  change ("/" +:+ bucket +:+ "/packages/" +:+ rest)
    with (String "/" "" +:+ bucket +:+ String "/" "" +:+ "packages"
            +:+ String "/" "" +:+ rest).
  change ("/" +:+ bucket +:+ "/" +:+ x +:+ "/" +:+ rest)
    with (String "/" "" +:+ bucket +:+ String "/" "" +:+ x
            +:+ String "/" "" +:+ rest).
  apply (split_path_third _ _ x "packages" (split "/" rest)).
  - rewrite split_sep_cons, !split_app_sep.
    by rewrite (split_no_sep _ bucket), (split_no_sep _ x).
  - rewrite split_sep_cons, !split_app_sep.
    by rewrite (split_no_sep _ bucket).
  - apply split_not_nil.
Qed.

End third_segment.

(** ** Bucket-relative names *)

Section bucket_paths.
Import Py storage.
Implicit Types (s t : string) (c : ascii) (l : list string).

Lemma split_head_no_sep c s :
  contains c (default "" (head (split c s))) = false.
Proof.
  induction s as [|a s IH]; [done|]. simpl.
  case_decide as Hac; [done|].
  destruct (split c s) as [|h t]; simpl in *.
  - by rewrite decide_False.
  - by rewrite decide_False.
Qed.

(** [to_bucket_and_path] from the segments of the path. *)
Lemma to_bucket_and_path_segments p :
  to_bucket_and_path p
  = Ok (default "" (head (split "/" (lstrip "/" p))),
        Py.join "/" (drop 1 (split "/" (lstrip "/" p)))).
Proof.
  unfold to_bucket_and_path.
  change 1 with (Z.of_nat 1). rewrite slice_from_nat.
  change 0 with (Z.of_nat 0). rewrite index_nat.
  pose proof (split_not_nil "/" (lstrip "/" p)).
  by destruct (split "/" (lstrip "/" p)) as [|b segs].
Qed.

Lemma to_bucket_and_path_prefixed bucket rest :
  bucket ≠ "" -> contains "/" bucket = false ->
  to_bucket_and_path ("/" +:+ bucket +:+ "/" +:+ rest) = Ok (bucket, rest).
Proof.
  intros Hne Hb. rewrite to_bucket_and_path_segments.
  change (lstrip "/" ("/" +:+ bucket +:+ "/" +:+ rest))
    with (lstrip "/" (bucket +:+ String "/" "" +:+ rest)).
  rewrite lstrip_no_sep by done.
  rewrite split_app_sep, (split_no_sep _ bucket) by done.
  change (drop 1 ([bucket] ++ split "/" rest)) with (split "/" rest).
  by rewrite join_split.
Qed.

Lemma join_not_empty sep x l : x ≠ "" -> join sep (x :: l) ≠ "".
Proof.
  intros Hx. destruct l as [|y l]; [done|].
  rewrite join_cons2. intros [? _]%app_eq_empty. done.
Qed.

Lemma join_app sep l1 l2 :
  l1 ≠ [] -> l2 ≠ [] ->
  join sep (l1 ++ l2) = join sep l1 +:+ sep +:+ join sep l2.
Proof.
  induction l1 as [|x l1 IH]; [done|]. intros _ Hl2.
  destruct l1 as [|y l1].
  - destruct l2 as [|z l2]; [done|]. reflexivity.
  - change ((x :: y :: l1) ++ l2) with (x :: y :: (l1 ++ l2)).
    rewrite !join_cons2. change (y :: l1 ++ l2) with ((y :: l1) ++ l2).
    rewrite IH by done. by rewrite !app_assoc'.
Qed.

Lemma endswith_join l :
  l ≠ [] -> Forall valid_component l -> endswith (Py.join "/" l) "/" = false.
Proof.
  induction l as [|x l IH]; [done|]. intros _ Hall.
  apply Forall_cons in Hall as [[Hx Hs] Hall].
  destruct l as [|y l]; [by apply endswith_no_sep|].
  rewrite join_cons2.
  pose proof Hall as Hall'. apply Forall_cons in Hall' as [[Hy _] _].
  rewrite <- app_assoc', endswith_app_r by (by apply join_not_empty).
  by apply IH.
Qed.

(** X5. [to_bucket_and_path] never raises. Its first part is the first
    segment of the path once the leading slashes are gone, so it holds no
    ['/'] and a path with one more slash in front gives the same, and the
    two parts put the stripped path together again. *)
Theorem to_bucket_and_path_parts p :
  ∃ b bucket_path,
    to_bucket_and_path p = Ok (b, bucket_path)
    ∧ to_bucket_and_path ("/" +:+ p) = Ok (b, bucket_path)
    ∧ contains "/" b = false
    ∧ (if contains "/" (lstrip "/" p)
       then lstrip "/" p = b +:+ "/" +:+ bucket_path
       else lstrip "/" p = b ∧ bucket_path = "").
Proof.
  eexists _, _. split; [apply to_bucket_and_path_segments|].
  split; [by rewrite to_bucket_and_path_segments|].
  split; [apply split_head_no_sep|].
  pose proof (join_split "/" (lstrip "/" p)) as Hjoin.
  destruct (contains "/" (lstrip "/" p)) eqn:Hc.
  - pose proof (split_length _ _ Hc) as Hlen.
    destruct (split "/" (lstrip "/" p)) as [|b [|x segs]];
      [simpl in Hlen; lia..|].
    by rewrite join_cons2 in Hjoin.
  - by rewrite split_no_sep in * by done.
Qed.

(** X6. [to_bucket_and_path] undoes [_legacy_path]: for a non-empty bucket
    name that is a single segment, the path that [ls] makes of a blob name
    splits into the bucket and that name again. *)
Theorem to_bucket_and_path_legacy_path bucket name :
  bucket ≠ "" -> contains "/" bucket = false ->
  to_bucket_and_path (_legacy_path bucket name) = Ok (bucket, name).
Proof. intros Hne Hb. by apply to_bucket_and_path_prefixed. Qed.

End bucket_paths.

(** ** What a listing covers *)

Section listing_scope.
Import Py storage.
Variable bucket : string.
Variable storage_client : client.

(** X7. [ls] raises for the empty path only, and then [IndexError]: every
    other path is listed, whatever it looks like. *)
Theorem ls_raises_iff_empty path dir_only e :
  ls bucket storage_client path dir_only = Raise e
  <-> path = "" ∧ e = IndexError.
Proof.
  split.
  - destruct path as [|a path]; [by intros [= <-]|].
    unfold ls. rewrite index_last.
    destruct (last (chars (String a path))) as [c|] eqn:Hlast;
      [|by apply last_None in Hlast].
    simpl mbind.
    destruct (bool_decide (c = "/"%char));
      rewrite to_bucket_and_path_segments; simpl mbind; by destruct dir_only.
  - by intros [-> ->].
Qed.

Lemma address_path_open package version filename :
  valid_address package version filename ->
  get_package_path bucket package version filename ≠ ""
  ∧ endswith (get_package_path bucket package version filename) "/" = false.
Proof.
  intros Hv. rewrite get_package_path_join by done. split; [done|].
  destruct Hv as [Hall _].
  replace ("/" +:+ bucket +:+ "/packages/"
             +:+ Py.join "/" (components_of package version filename))
    with (("/" +:+ bucket +:+ "/packages/")
            +:+ Py.join "/" (components_of package version filename))
    by (by rewrite !app_assoc').
  pose proof Hall as Hall'. apply Forall_cons in Hall' as [[Hp _] _].
  rewrite endswith_app_r by (by apply join_not_empty).
  by apply endswith_join.
Qed.

(** The path of a valid address, in a bucket whose name is not empty and
    has no ['/'], does not end in ['/'] and reaches below the bucket. *)
Lemma address_path_in_bucket package version filename :
  bucket ≠ "" -> contains "/" bucket = false ->
  valid_address package version filename ->
  endswith (get_package_path bucket package version filename) "/" = false
  ∧ contains "/" (lstrip "/" (get_package_path bucket package version filename))
    = true.
Proof.
  intros Hne Hb Hv. split; [by apply address_path_open|].
  rewrite get_package_path_join by done.
  change (lstrip "/" ("/" +:+ bucket +:+ "/packages/"
                        +:+ Py.join "/" (components_of package version filename)))
    with (lstrip "/" (bucket +:+ String "/" ("packages/"
                        +:+ Py.join "/" (components_of package version filename)))).
  rewrite lstrip_no_sep by done. apply contains_app_sep.
Qed.

(** So does the packages root of such a bucket. *)
Lemma packages_path_in_bucket :
  bucket ≠ "" -> contains "/" bucket = false ->
  endswith (get_packages_path bucket) "/" = false
  ∧ contains "/" (lstrip "/" (get_packages_path bucket)) = true.
Proof.
  intros Hne Hb. split; [apply get_packages_path_open|].
  unfold get_packages_path.
  change (lstrip "/" ("/" +:+ bucket +:+ "/packages"))
    with (lstrip "/" (bucket +:+ String "/" "packages")).
  rewrite lstrip_no_sep by done. apply contains_app_sep.
Qed.

(** The blob name behind the path of a valid address. *)
Lemma address_blob_name package version filename :
  bucket ≠ "" -> contains "/" bucket = false ->
  valid_address package version filename ->
  to_bucket_and_path (get_package_path bucket package version filename)
  = Ok (bucket, "packages/" +:+ Py.join "/" (components_of package version filename)).
Proof.
  intros Hne Hb Hv. rewrite get_package_path_join by done.
  by apply (to_bucket_and_path_prefixed bucket).
Qed.

(** X8. Listing a package or a version covers what lies below it and
    nothing else. For a non-empty bucket name that is a single segment and
    a valid package or package and version, [ls] of its path queries the
    prefix [packages/{package}[/{version}]/] with delimiter ['/'], and the
    blob name of a valid address begins with that prefix exactly when its
    components continue those of the listed path. *)
Theorem ls_covers_descendants package version :
  bucket ≠ "" -> contains "/" bucket = false ->
  valid_address package version None ->
  let listed := components_of package version None in
  let prefix := "packages/" +:+ Py.join "/" listed +:+ "/" in
  (∀ dir_only,
     ls bucket storage_client (get_package_path bucket package version None) dir_only
     = Ok (_legacy_path bucket <$>
             (if dir_only then prefixes (storage_client bucket prefix "/")
              else blob_names (storage_client bucket prefix "/"))))
  ∧ (∀ package' version' filename',
       valid_address package' version' filename' ->
       ∃ name,
         to_bucket_and_path (get_package_path bucket package' version' filename')
         = Ok (bucket, name)
         ∧ (startswith name prefix = true
            <-> ∃ below, below ≠ []
                  ∧ components_of package' version' filename' = listed ++ below)).
Proof.
  intros Hne Hb Hv listed prefix.
  assert (listed ≠ []) as Hlisted by done.
  split.
  - intros dir_only. destruct (address_path_open _ _ _ Hv) as [Hp He].
    rewrite ls_pads by done.
    apply (ls_padded _ _ _ _ bucket); [by rewrite endswith_app_r|].
    rewrite get_package_path_join by done.
    rewrite !app_assoc'.
    by apply (to_bucket_and_path_prefixed bucket).
  - intros package' version' filename' Hv'. eexists.
    split; [by apply address_blob_name|].
    unfold prefix. rewrite startswith_app. split.
    + intros [r Hr]%startswith_inv.
      apply (f_equal (split "/")) in Hr. rewrite app_assoc' in Hr.
      change (Py.join "/" listed +:+ "/" +:+ r)
        with (Py.join "/" listed +:+ String "/" "" +:+ r) in Hr.
      rewrite split_app_sep in Hr.
      rewrite !(split_join "/") in Hr
        by (done || by apply components_of_no_sep).
      exists (split "/" r). split; [apply split_not_nil|done].
    + intros (below & Hbelow & ->).
      rewrite join_app by done. rewrite <- app_assoc'.
      apply startswith_app_r.
Qed.

End listing_scope.

(** ** Reading and writing blobs *)

Section blob_operations.
Import Py storage.

(** The blob operations on a path with a bucket-relative name. *)
Lemma blob_operations_named path b name :
  to_bucket_and_path path = Ok (b, name) -> name ≠ "" ->
  (∀ bucket, read path bucket
     = match bucket !! name with
       | Some content => Done (seek (download_to_file content) 0)
       | None => Failed NotFound
       end)
  ∧ (∀ content bucket,
       write path content bucket
       = if bool_decide (tell content = 0%nat)
         then Done (<[name := getvalue content]> bucket)
         else Failed ValueError)
  ∧ (∀ bucket, file_exists path bucket
       = Done (bool_decide (is_Some (bucket !! name))))
  ∧ (∀ bucket, get_metadata path bucket
       = Done (content ← bucket !! name; Some (name, content))).
Proof.
  intros Hp Hne. unfold read, write, file_exists, get_metadata, blob_path,
    upload_from_file.
  rewrite Hp, !(bool_decide_eq_false_2 (name = "")) by done.
  repeat split; try done. intros content bucket. by case_bool_decide.
Qed.

(** The blob operations on a path without a bucket-relative name. *)
Lemma blob_operations_unnamed path b :
  to_bucket_and_path path = Ok (b, "") ->
  (∀ bucket, read path bucket = Failed ValueError)
  ∧ (∀ bucket, file_exists path bucket = Failed ValueError)
  ∧ (∀ bucket, get_metadata path bucket = Failed ValueError).
Proof.
  intros Hp. unfold read, file_exists, get_metadata, blob_path.
  by rewrite Hp.
Qed.

(** X9. What [write] stores at a path, [read] hands back from that path.
    For a path with a non-empty bucket-relative name: [write] of a file
    object that is at its beginning succeeds, and afterwards [read]
    returns its bytes in a file object positioned at the start,
    [file_exists] is true and [get_metadata] finds the blob; [write] of a
    file object that is not at its beginning raises [ValueError]. *)
Theorem write_then_read path b name content bucket :
  to_bucket_and_path path = Ok (b, name) -> name ≠ "" ->
  if bool_decide (tell content = 0%nat) then
    ∃ bucket',
      write path content bucket = Done bucket'
      ∧ read path bucket' = Done {| getvalue := getvalue content; tell := 0 |}
      ∧ file_exists path bucket' = Done true
      ∧ get_metadata path bucket' = Done (Some (name, getvalue content))
  else write path content bucket = Failed ValueError.
Proof.
  intros Hp Hne.
  destruct (blob_operations_named _ _ _ Hp Hne) as (Hr & Hw & He & Hm).
  rewrite Hw. case_bool_decide; [|done].
  eexists. split; [done|].
  by rewrite Hr, He, Hm, !lookup_insert_eq.
Qed.

(** X10. Copying with [read] and [write] keeps the content whole: [read]
    rewinds the file object it hands back, so [write] takes it, and for a
    target with a non-empty bucket-relative name the target then reads as
    the source did, and the source still reads the same. *)
Theorem read_then_write source target b name file bucket :
  read source bucket = Done file ->
  to_bucket_and_path target = Ok (b, name) -> name ≠ "" ->
  ∃ bucket',
    write target file bucket = Done bucket'
    ∧ read target bucket' = Done file
    ∧ read source bucket' = Done file.
Proof.
  intros Hread Hp Hne.
  destruct (blob_operations_named _ _ _ Hp Hne) as (Hr' & Hw' & _).
  pose proof (to_bucket_and_path_segments source) as Hsrc.
  set (src := Py.join "/" (drop 1 (split "/" (lstrip "/" source)))) in *.
  destruct (decide (src = "")) as [Hse|Hsne].
  { rewrite Hse in Hsrc.
    destruct (blob_operations_unnamed _ _ Hsrc) as (Hr & _).
    by rewrite Hr in Hread. }
  destruct (blob_operations_named _ _ _ Hsrc Hsne) as (Hr & _).
  rewrite Hr in Hread.
  destruct (bucket !! src) as [content|] eqn:Hcontent; [|done].
  injection Hread as <-.
  rewrite Hw'. simpl tell. rewrite bool_decide_eq_true_2 by done.
  eexists. split; [done|].
  rewrite Hr, Hr', lookup_insert_eq. split; [done|].
  destruct (decide (name = src)) as [->|Hdiff].
  - by rewrite lookup_insert_eq.
  - by rewrite lookup_insert_ne, Hcontent.
Qed.

(** X11. The bucket that a path names is not looked at: for non-empty
    names without ['/'] in the place of the bucket, [read], [write],
    [file_exists] and [get_metadata] do the same on the same
    bucket-relative part, whatever the name is. *)
Theorem blob_operations_ignore_bucket_segment b1 b2 rest content bucket :
  b1 ≠ "" -> contains "/" b1 = false ->
  b2 ≠ "" -> contains "/" b2 = false ->
  read ("/" +:+ b1 +:+ "/" +:+ rest) bucket
  = read ("/" +:+ b2 +:+ "/" +:+ rest) bucket
  ∧ write ("/" +:+ b1 +:+ "/" +:+ rest) content bucket
    = write ("/" +:+ b2 +:+ "/" +:+ rest) content bucket
  ∧ file_exists ("/" +:+ b1 +:+ "/" +:+ rest) bucket
    = file_exists ("/" +:+ b2 +:+ "/" +:+ rest) bucket
  ∧ get_metadata ("/" +:+ b1 +:+ "/" +:+ rest) bucket
    = get_metadata ("/" +:+ b2 +:+ "/" +:+ rest) bucket.
Proof.
  intros Hn1 Hs1 Hn2 Hs2. unfold read, write, file_exists, get_metadata.
  by rewrite !to_bucket_and_path_prefixed.
Qed.

(** X12. The three ways of asking for a blob agree. On a path without a
    bucket-relative name all three raise [ValueError]. On every other
    path either [read] hands back the content from position 0,
    [file_exists] is true and [get_metadata] finds that content, or
    [read] raises [NotFound], [file_exists] is false and [get_metadata]
    is [None]. *)
Theorem blob_lookups_agree path bucket :
  ∃ b name,
    to_bucket_and_path path = Ok (b, name)
    ∧ if bool_decide (name = "") then
        read path bucket = Failed ValueError
        ∧ file_exists path bucket = Failed ValueError
        ∧ get_metadata path bucket = Failed ValueError
      else
        match read path bucket with
        | Done file =>
            tell file = 0%nat
            ∧ file_exists path bucket = Done true
            ∧ get_metadata path bucket = Done (Some (name, getvalue file))
        | Failed f =>
            f = NotFound
            ∧ file_exists path bucket = Done false
            ∧ get_metadata path bucket = Done None
        end.
Proof.
  pose proof (to_bucket_and_path_segments path) as Hp.
  eexists _, _. split; [exact Hp|].
  set (name := Py.join "/" (drop 1 (split "/" (lstrip "/" path)))) in *.
  case_bool_decide as Hname.
  - rewrite Hname in Hp.
    destruct (blob_operations_unnamed _ _ Hp) as (Hr & He & Hm).
    by rewrite Hr, He, Hm.
  - destruct (blob_operations_named _ _ _ Hp Hname) as (Hr & _ & He & Hm).
    rewrite Hr, He, Hm.
    by destruct (bucket !! name) as [content|] eqn:Hcontent.
Qed.

End blob_operations.

Section blob_addresses.
Import Py storage.
Variable bucket_name : string.

Lemma address_blob_name_inj package version filename package' version' filename' :
  valid_address package version filename ->
  valid_address package' version' filename' ->
  "packages/" +:+ Py.join "/" (components_of package version filename)
  = "packages/" +:+ Py.join "/" (components_of package' version' filename') ->
  package = package' ∧ version = version' ∧ filename = filename'.
Proof.
  intros Hv Hv' Heq. apply (inj (String.app _)) in Heq.
  apply (f_equal (split "/")) in Heq.
  rewrite !(split_join "/") in Heq
    by (done || by apply components_of_no_sep).
  destruct Hv as [_ Hi], Hv' as [_ Hi'].
  by apply components_of_inj.
Qed.

(** X13. Writing to one address leaves every other address as it was: for
    a non-empty bucket name that is a single segment and two valid
    addresses that differ in package, version or filename, [read],
    [file_exists] and [get_metadata] at the second give after a [write]
    at the first what they gave before. *)
Theorem write_leaves_other_addresses
    package version filename package' version' filename'
    content (bucket bucket' : blobs) :
  bucket_name ≠ "" -> contains "/" bucket_name = false ->
  valid_address package version filename ->
  valid_address package' version' filename' ->
  ¬ (package = package' ∧ version = version' ∧ filename = filename') ->
  write (get_package_path bucket_name package version filename) content bucket
  = Done bucket' ->
  read (get_package_path bucket_name package' version' filename') bucket'
  = read (get_package_path bucket_name package' version' filename') bucket
  ∧ file_exists (get_package_path bucket_name package' version' filename') bucket'
    = file_exists (get_package_path bucket_name package' version' filename') bucket
  ∧ get_metadata (get_package_path bucket_name package' version' filename') bucket'
    = get_metadata (get_package_path bucket_name package' version' filename') bucket.
Proof.
  intros Hne Hb Hv Hv' Hdiff Hwrite.
  destruct (blob_operations_named _ _ _
              (address_blob_name bucket_name _ _ _ Hne Hb Hv) ltac:(done))
    as (_ & Hw & _).
  destruct (blob_operations_named _ _ _
              (address_blob_name bucket_name _ _ _ Hne Hb Hv') ltac:(done))
    as (Hr & _ & He & Hm).
  rewrite Hw in Hwrite. case_bool_decide; [|done]. injection Hwrite as <-.
  rewrite !Hr, !He, !Hm, lookup_insert_ne; [done|].
  intros Heq. apply Hdiff. by eapply address_blob_name_inj.
Qed.

End blob_addresses.

(** ** The storage global *)

(** X15. [get_storage] creates the storage once: the first call takes the
    bucket from [BUCKET_NAME], or from the default bucket name when the
    variable is unset or empty, and every later call hands back that same
    storage, whatever the environment says by then. *)
Theorem get_storage_once BUCKET_NAME default_name BUCKET_NAME' default_name' global :
  let first := main.get_storage BUCKET_NAME default_name global in
  first.2 = Some first.1
  ∧ main.get_storage BUCKET_NAME' default_name' first.2 = first
  ∧ storage.self_bucket (main.get_storage BUCKET_NAME default_name None).1
    = match BUCKET_NAME with
      | Some (String c s) => String c s
      | _ => default_name
      end.
Proof.
  simpl. unfold main.get_storage.
  split; [by destruct global|]. split; [by destruct global|].
  by destruct BUCKET_NAME as [[|c s]|].
Qed.

Section listed_entries.
Import Py storage.
Variable bucket : string.

(** X16. What [ls] hands back decodes to the address it stands for: for a
    bucket name that is a single segment and a valid address, the path
    that [_legacy_path] makes of its blob name is the path of the address,
    and the path made of that name followed by ['/'], as a directory entry
    has it, decodes to the package, and to the version and the filename
    exactly when the address has them. *)
Theorem listed_entry_decodes package version filename :
  contains "/" bucket = false ->
  valid_address package version filename ->
  let name := "packages/" +:+ Py.join "/" (components_of package version filename) in
  _legacy_path bucket name = get_package_path bucket package version filename
  ∧ ∃ d, split_path bucket (_legacy_path bucket (name +:+ "/")) = Ok d
         ∧ d !! "package" = Some package
         ∧ d !! "version" = version
         ∧ d !! "filename" = filename.
Proof.
  intros Hb Hv name.
  assert (_legacy_path bucket name
          = get_package_path bucket package version filename) as Hpath
    by (by rewrite get_package_path_join).
  split; [done|]. eexists. split.
  - apply (split_path_of_segments_slash _ _ "packages"
             (components_of package version filename)).
    replace (_legacy_path bucket (name +:+ "/"))
      with (_legacy_path bucket name +:+ String "/" "")
      by (unfold _legacy_path; by rewrite !app_assoc').
    rewrite split_snoc_sep, Hpath.
    by rewrite get_package_path_segments.
  - destruct Hv as [_ Himp].
    destruct version as [v|], filename as [f|]; try done.
    destruct Himp as [? [=]]. by eexists.
Qed.

End listed_entries.

(** ** The properties at work *)

Ltac valid_address_holds :=
  split; [repeat (constructor; [done|]); constructor | by intros [? [=]] || by eexists].

Lemma split_path_get_package_path_address_witness :
  ∃ d, storage.split_path "bucket"
         (storage.get_package_path "bucket" "foo" (Some "1.0") None) = Py.Ok d
       ∧ d !! "package" = Some "foo" ∧ d !! "version" = Some "1.0"
       ∧ d !! "filename" = None ∧ size d = 2%nat.
Proof.
  apply (split_path_get_package_path_address "bucket" "foo" (Some "1.0") None);
    [reflexivity|valid_address_holds].
Defined.

Lemma split_path_get_packages_path_witness :
  storage.split_path "bucket" "/bucket/packages" = Py.Ok ∅
  ∧ storage.split_path "bucket" "/bucket/packages/" = Py.Ok ∅.
Proof. apply (split_path_get_packages_path "bucket"). reflexivity. Defined.

Lemma get_package_path_injective_witness :
  "foo" = "foo" ∧ Some "1.0" = Some "1.0" ∧ (None : option string) = None.
Proof.
  apply (get_package_path_injective "bucket" "foo" (Some "1.0") None
           "foo" (Some "1.0") None);
    [valid_address_holds|valid_address_holds|reflexivity].
Defined.

Lemma split_path_any_third_segment_witness :
  storage.split_path "bucket" "/bucket/anything/foo/1.0"
  = storage.split_path "bucket" "/bucket/packages/foo/1.0".
Proof.
  apply (split_path_any_third_segment "bucket" "anything" "foo/1.0");
    reflexivity.
Defined.

Lemma to_bucket_and_path_legacy_path_witness :
  storage.to_bucket_and_path (storage._legacy_path "bucket" "packages/foo/1.0/")
  = Py.Ok ("bucket", "packages/foo/1.0/").
Proof.
  apply (to_bucket_and_path_legacy_path "bucket" "packages/foo/1.0/");
    [discriminate|reflexivity].
Defined.

Lemma ls_covers_descendants_witness :
  storage.ls "bucket" echo_client "/bucket/packages/foo" false
  = Py.Ok ["/bucket/packages/foo/"].
Proof.
  destruct (ls_covers_descendants "bucket" echo_client "foo" None)
    as [Hls _]; [discriminate|reflexivity|valid_address_holds|].
  exact (Hls false).
Defined.

Lemma read_then_write_witness :
  ∃ bucket' : gmap string (list Byte.byte),
    storage.write "/bucket/packages/foo/1.1/foo.tar.gz"
      {| storage.getvalue := [Byte.x66; Byte.x6f]; storage.tell := 0 |}
      {[ "packages/foo/1.0/foo.tar.gz" := [Byte.x66; Byte.x6f] ]}
    = storage.Done bucket'
    ∧ storage.read "/bucket/packages/foo/1.1/foo.tar.gz" bucket'
      = storage.Done {| storage.getvalue := [Byte.x66; Byte.x6f]; storage.tell := 0 |}
    ∧ storage.read "/bucket/packages/foo/1.0/foo.tar.gz" bucket'
      = storage.Done {| storage.getvalue := [Byte.x66; Byte.x6f]; storage.tell := 0 |}.
Proof.
  apply (read_then_write "/bucket/packages/foo/1.0/foo.tar.gz"
           "/bucket/packages/foo/1.1/foo.tar.gz"
           "bucket" "packages/foo/1.1/foo.tar.gz");
    [reflexivity|reflexivity|discriminate].
Defined.

Lemma write_then_read_witness :
  ∃ bucket' : gmap string (list Byte.byte),
    storage.write "/bucket/packages/foo/1.0/foo.tar.gz"
      {| storage.getvalue := [Byte.x66; Byte.x6f]; storage.tell := 0 |} ∅
    = storage.Done bucket'
    ∧ storage.read "/bucket/packages/foo/1.0/foo.tar.gz" bucket'
      = storage.Done {| storage.getvalue := [Byte.x66; Byte.x6f]; storage.tell := 0 |}
    ∧ storage.file_exists "/bucket/packages/foo/1.0/foo.tar.gz" bucket'
      = storage.Done true
    ∧ storage.get_metadata "/bucket/packages/foo/1.0/foo.tar.gz" bucket'
      = storage.Done (Some ("packages/foo/1.0/foo.tar.gz", [Byte.x66; Byte.x6f])).
Proof.
  apply (write_then_read "/bucket/packages/foo/1.0/foo.tar.gz"
           "bucket" "packages/foo/1.0/foo.tar.gz"
           {| storage.getvalue := [Byte.x66; Byte.x6f]; storage.tell := 0 |} ∅);
    [reflexivity|discriminate].
Defined.

Lemma blob_operations_ignore_bucket_segment_witness :
  storage.read "/other/packages/foo" {[ "packages/foo" := [Byte.x66] ]}
  = storage.read "/bucket/packages/foo" {[ "packages/foo" := [Byte.x66] ]}.
Proof.
  apply (blob_operations_ignore_bucket_segment "other" "bucket" "packages/foo"
           {| storage.getvalue := []; storage.tell := 0 |});
    (discriminate || reflexivity).
Defined.

Lemma write_leaves_other_addresses_witness :
  storage.read (storage.get_package_path "bucket" "foo" (Some "1.0") (Some "a.whl"))
    (<[ "packages/foo/1.1/a.whl" := [Byte.x66] ]> ∅)
  = storage.read (storage.get_package_path "bucket" "foo" (Some "1.0") (Some "a.whl"))
      (∅ : gmap string (list Byte.byte)).
Proof.
  eapply (write_leaves_other_addresses "bucket" "foo" (Some "1.1") (Some "a.whl")
            "foo" (Some "1.0") (Some "a.whl")
            {| storage.getvalue := [Byte.x66]; storage.tell := 0 |} ∅);
    [discriminate|reflexivity|valid_address_holds|valid_address_holds
    |by intros (_ & [=] & _)|reflexivity].
Defined.

Lemma listed_entry_decodes_witness :
  ∃ d, storage.split_path "bucket"
         (storage._legacy_path "bucket" "packages/foo/1.0/") = Py.Ok d
       ∧ d !! "package" = Some "foo" ∧ d !! "version" = Some "1.0"
       ∧ d !! "filename" = None.
Proof.
  destruct (listed_entry_decodes "bucket" "foo" (Some "1.0") None)
    as [_ Hd]; [reflexivity|valid_address_holds|].
  exact Hd.
Defined.
